(** * Solar-system trajectories to KML: a verification development

    Shallow embedding of the two converters of the repository,

    - [generar_kml.py]: stride, minimum-distance decimation and
      affine-offset projection of a planar track;
    - [voyagers_to_kml.py]: CSV loader, spherical projection, KML emitter
      and command-line driver.

    A Python [float] is an IEEE 754 binary64 number, and the numeric code
    is embedded at two levels.

    - In binary64 (modules [Float64], [Generar64], [Voyagers64]), on the
      primitive type [float], whose operations round as the interpreter's
      do.  What the interpreter takes from the C library ([pow], [atan2],
      the summation of [hypot]) is a parameter of these definitions.  What
      is said of computed values (thresholds, signs, ranges, zeros,
      infinities and NaN) is said at this level.
    - Over exact arithmetic (modules [PyMath], [Generar], [Voyagers]),
      where a number is the real number it stands for and [math.sqrt],
      [math.hypot], [math.atan2] and [math.degrees] are the real functions
      of the same name.  This level carries what does not depend on
      rounding (the order of samples, the text of the document, the reads
      and writes of the driver) and the round trip of the projection over
      real arithmetic.  The missing value ([NaN]) that the CSV reader
      produces for absent fields is a separate constructor of [pyfloat]. *)

From Stdlib Require Import Floats.
From Stdlib Require Import Reals Lra Lia List String Ascii Bool Arith ZArith.
From Stdlib Require Import DecimalString DecimalNat FinFun.
Import ListNotations.

Local Open Scope R_scope.

(** ** Python values shared by both scripts *)

Module Py.

(** Exceptions that end a run. *)
Inductive exn : Type :=
| SystemExit (msg : string)
| FileNotFoundError (path : string)
| EmptyDataError
| ParserError
| IndexError
| ValueError
| OverflowError.

(** A computation that returns a value or raises. *)
Inductive result (A : Type) : Type :=
| Ok (a : A)
| Raise (e : exn).

Arguments Ok {A} a.
Arguments Raise {A} e.

Definition bind {A B : Type} (r : result A) (k : A -> result B) : result B :=
  match r with
  | Ok a => k a
  | Raise e => Raise e
  end.

(** Exit status of the interpreter when an exception reaches the top level:
    [SystemExit] carrying a string prints it and exits with status 1, and so
    does any other uncaught exception (after its traceback). *)
Definition exit_status (e : exn) : Z := 1%Z.

(** Characters and text *)
Definition nl : string := String "010"%char EmptyString.
Definition dq : string := String "034"%char EmptyString.

(** [sep.join(l)] *)
Definition join (sep : string) (l : list string) : string := String.concat sep l.

(** Text made of the given lines, each one closed by a newline. *)
Definition unlines (l : list string) : string :=
  String.concat EmptyString (map (fun s => (s ++ nl)%string) l).

(** [str(n)] for integers *)
Definition str_nat (n : nat) : string := NilEmpty.string_of_uint (Nat.to_uint n).
Definition str_Z (z : Z) : string := NilZero.string_of_int (Z.to_int z).

(** [s.startswith(p)] *)
Fixpoint starts_with (p s : string) {struct p} : bool :=
  match p with
  | EmptyString => true
  | String a p' =>
      match s with
      | EmptyString => false
      | String b s' => Ascii.eqb a b && starts_with p' s'
      end
  end.

(** [s.split(sep)] for a one-character separator *)
Fixpoint split_on (sep : ascii) (s : string) : list string :=
  match s with
  | EmptyString => [EmptyString]
  | String c s' =>
      if Ascii.eqb c sep then EmptyString :: split_on sep s'
      else match split_on sep s' with
           | f :: fs => String c f :: fs
           | [] => [String c EmptyString]
           end
  end.

(** Text mode of [open(path, "r")]: universal newlines, so a carriage
    return, alone or followed by a line feed, is read as one line feed. *)
Fixpoint universal_newlines (s : string) : string :=
  match s with
  | EmptyString => EmptyString
  | String c s' =>
      if Ascii.eqb c "013"%char then
        match s' with
        | String d s'' =>
            if Ascii.eqb d "010"%char
            then String "010"%char (universal_newlines s'')
            else String "010"%char (universal_newlines s')
        | EmptyString => String "010"%char EmptyString
        end
      else String c (universal_newlines s')
  end.

(** The lines of a text, each with its line feed. *)
Fixpoint keepends (s : string) : list string :=
  match s with
  | EmptyString => []
  | String c s' =>
      if Ascii.eqb c "010"%char then String c EmptyString :: keepends s'
      else match keepends s' with
           | l :: ls => String c l :: ls
           | [] => [String c EmptyString]
           end
  end.

(** [f.readlines()] on a file opened in text mode, as a function of the
    characters of the file. *)
Definition readlines (s : string) : list string :=
  keepends (universal_newlines s).

(** [l[i]] with [IndexError] out of range *)
Definition getitem {A : Type} (l : list A) (i : nat) : result A :=
  match nth_error l i with
  | Some a => Ok a
  | None => Raise IndexError
  end.

(** [l[::k]]: every [k]-th element from the first one on.  [skip] counts the
    elements still to pass over before the next one is taken. *)
Fixpoint every_nth {A : Type} (k skip : nat) (l : list A) : list A :=
  match l with
  | [] => []
  | a :: t =>
      match skip with
      | O => a :: every_nth k (k - 1) t
      | S j => every_nth k j t
      end
  end.

(** A slice step of zero raises [ValueError]. *)
Definition slice_step {A : Type} (l : list A) (k : nat) : result (list A) :=
  match k with
  | O => Raise ValueError
  | S _ => Ok (every_nth k 0 l)
  end.

(** [enumerate(l)] *)
Definition enumerate {A : Type} (l : list A) : list (nat * A) :=
  combine (seq 0 (List.length l)) l.

(** [zip(a, b, c, d)]: stops with the shortest argument. *)
Fixpoint zip4 {A B C D : Type} (a : list A) (b : list B) (c : list C) (d : list D)
  : list (A * B * C * D) :=
  match a, b, c, d with
  | x :: a', y :: b', z :: c', w :: d' => (x, y, z, w) :: zip4 a' b' c' d'
  | _, _, _, _ => []
  end.

(** [sub] is [l] with some elements left out: same elements, same order,
    none used twice. *)
Inductive subseq {A : Type} : list A -> list A -> Prop :=
| subseq_nil : subseq [] []
| subseq_keep (a : A) (sub l : list A) : subseq sub l -> subseq (a :: sub) (a :: l)
| subseq_drop (a : A) (sub l : list A) : subseq sub l -> subseq sub (a :: l).

(** A relation that holds between every element and its successor. *)
Fixpoint consecutive {A : Type} (P : A -> A -> Prop) (l : list A) : Prop :=
  match l with
  | a :: t =>
      match t with
      | b :: _ => P a b /\ consecutive P t
      | [] => True
      end
  | [] => True
  end.

End Py.

Notation "x <- c1 ;; c2" := (Py.bind c1 (fun x => c2))
  (at level 61, c1 at next level, right associativity).

(** ** The [math] functions over exact arithmetic *)

Module PyMath.

(** [math.hypot(x, y)] *)
Definition hypot (x y : R) : R := sqrt (x * x + y * y).

(** [math.atan2(y, x)]: the angle of the point [(x, y)], in (-PI, PI],
    with [atan2(0, 0) = 0]. *)
Definition atan2 (y x : R) : R :=
  if Rlt_dec 0 x then atan (y / x)
  else if Rlt_dec x 0 then
    (if Rle_dec 0 y then atan (y / x) + PI else atan (y / x) - PI)
  else if Rlt_dec 0 y then PI / 2
  else if Rlt_dec y 0 then - (PI / 2)
  else 0.

(** The comparisons [a != b] and [a > b] on floats *)
Definition Rneb (a b : R) : bool := if Req_dec_T a b then false else true.
Definition Rgtb (a b : R) : bool := if Rgt_dec a b then true else false.

(** [math.degrees(a)] and [math.radians(d)] *)
Definition degrees (a : R) : R := a * (180 / PI).

End PyMath.

(** ** [generar_kml.py] over exact arithmetic *)

Module Generar.
Import Py PyMath.

(** A sample of the planar variant: the pair [(x, y)]. *)
Definition point : Type := R * R.

(** *** Configuration constants *)

Definition input_file : string := "voyager1.txt".
Definition output_file : string := "voyager1.kml".
Definition line_skip : nat := 2.
Definition min_distance : R := 1e2.
Definition factor_escala : Z := 174000000.
Definition sun_lat : R := -25.280945.
Definition sun_lon : R := -57.609083.

(** *** [distance]: planar Euclidean distance *)

Definition distance (p1 p2 : point) : R :=
  sqrt ((fst p1 - fst p2) ^ 2 + (snd p1 - snd p2) ^ 2).

(** *** The decimation filter

    The test of the loop body,
    [last_point is None or distance((x, y), last_point) > min_distance],
    for a threshold [d]. *)

Definition keeps (d : R) (last_point : option point) (p : point) : bool :=
  match last_point with
  | None => true
  | Some q => Rgtb (distance p q) d
  end.

(** The walk over the strided samples: [last_point] is the state of the
    loop, the result lists the samples appended to [filtered_points] from
    here on, in the order they are appended. *)
Fixpoint prune (d : R) (last_point : option point) (samples : list point)
  : list point :=
  match samples with
  | [] => []
  | p :: rest =>
      if keeps d last_point p
      then p :: prune d (Some p) rest
      else prune d last_point rest
  end.

(** The first sample of [out] lies farther than [d] from [last]. *)
Definition far_from (d : R) (last : option point) (out : list point) : Prop :=
  match last, out with
  | Some q, p :: _ => distance q p > d
  | _, _ => True
  end.

(** *** The affine-offset projection of the output loop *)

Definition project (p : point) : R * R :=
  let '(x, y) := p in
  let lon := sun_lon + x / IZR factor_escala in
  let lat := sun_lat + y / IZR factor_escala in
  (lon, lat).

(** *** The script, from the text of the input file to the text it writes *)

Section Script.

(** [float(s)]: the number a field denotes, [None] when it denotes none. *)
Variable float_of_string : string -> option R.
(** [str(v)] of a float, as an f-string renders it. *)
Variable repr_float : R -> string.

Definition float (s : string) : result R :=
  match float_of_string s with
  | Some v => Ok v
  | None => Raise ValueError
  end.

(** One pass of the loop body up to the test: the sample of a line. *)
Definition parse_line (line : string) : result point :=
  let parts := split_on ","%char line in
  f2 <- getitem parts 2 ;;
  x <- float f2 ;;
  f3 <- getitem parts 3 ;;
  y <- float f3 ;;
  Ok (x, y).

(** The samples of a list of lines, or the exception of the first line
    that has none. *)
Fixpoint parse_lines (lines : list string) : result (list point) :=
  match lines with
  | [] => Ok []
  | line :: rest =>
      p <- parse_line line ;;
      ps <- parse_lines rest ;;
      Ok (p :: ps)
  end.

(** The loop as it is written: parse a line, test it, append. *)
Fixpoint filter_loop (lines : list string) (filtered_points : list point)
  (last_point : option point) : result (list point) :=
  match lines with
  | [] => Ok filtered_points
  | line :: rest =>
      p <- parse_line line ;;
      if keeps min_distance last_point p
      then filter_loop rest (filtered_points ++ [p]) (Some p)
      else filter_loop rest filtered_points last_point
  end.

Definition filtered_points (text : string) : result (list point) :=
  lines <- slice_step (readlines text) line_skip ;;
  filter_loop lines [] None.

Definition coordinate_line (p : point) : string :=
  let '(lon, lat) := project p in
  ("        " ++ repr_float lon ++ "," ++ repr_float lat ++ nl)%string.

Definition kml_head : string :=
  unlines
    [ ("<?xml version=" ++ dq ++ "1.0" ++ dq ++ " encoding=" ++ dq ++ "UTF-8" ++ dq ++ "?>")%string
    ; ("<kml xmlns=" ++ dq ++ "http://www.opengis.net/kml/2.2" ++ dq ++ ">")%string
    ; "<Document>"%string
    ; "  <name>Voyager 1 Trajectory</name>"%string
    ; ("  <Style id=" ++ dq ++ "yellowLine" ++ dq ++ ">")%string
    ; "    <LineStyle>"%string
    ; "      <color>ff00ffff</color>"%string
    ; "      <width>2</width>"%string
    ; "    </LineStyle>"%string
    ; "  </Style>"%string
    ; "  <Placemark>"%string
    ; "    <name>Voyager 1 Path</name>"%string
    ; "    <styleUrl>#yellowLine</styleUrl>"%string
    ; "    <LineString>"%string
    ; "      <tessellate>1</tessellate>"%string
    ; "      <coordinates>"%string ].

Definition kml_tail : string :=
  (unlines
     [ "      </coordinates>"%string
     ; "    </LineString>"%string
     ; "  </Placemark>"%string
     ; "</Document>"%string ] ++ "</kml>")%string.

(** The text written to [output_file] and the line printed at the end. *)
Definition generar (text : string) : result (string * string) :=
  pts <- filtered_points text ;;
  let kml := (kml_head ++ String.concat EmptyString (map coordinate_line pts) ++ kml_tail)%string in
  let msg := ("KML generado: " ++ output_file ++ " con " ++ str_nat (List.length pts) ++ " puntos.")%string in
  Ok (kml, msg).

End Script.

End Generar.

(** ** [voyagers_to_kml.py]: loader, emitter and driver; the projection over
    exact arithmetic *)

Module Voyagers.
Import Py PyMath.

(** *** Scale configuration (module-level constants) *)

Definition SCALE_DENOMINATOR : Z := 174000000.
Definition AU_METERS : R := 149597870000.0.
Definition SCALE_M_PER_AU : R := AU_METERS / IZR SCALE_DENOMINATOR.

(** *** [xyz_to_lonlatalt] on numbers *)

Definition xyz_to_lonlatalt (x y z : R) : R * R * R :=
  let r_xy := hypot x y in
  let r := sqrt (x * x + y * y + z * z) in
  let lon := degrees (atan2 y x) in
  let lat :=
    if Rneb r_xy 0
    then degrees (atan2 z r_xy)
    else (if Rgtb z 0 then 90.0 else -90.0) in
  let alt_m := r * SCALE_M_PER_AU in
  (lon, lat, alt_m).


(** *** The inverse used by the round-trip property

    Written from the specification's words: rebuild a Cartesian vector from
    longitude, latitude (degrees) and radial distance, then rescale it by
    [SCALE_DENOMINATOR / AU_METERS]. *)




(** *** Floats that may be missing

    A column read from a CSV file holds numbers and, where a field is
    absent, [NaN].  Arithmetic and the [math] functions give [NaN] on [NaN];
    [NaN != v] is true and [NaN > v] is false. *)

Inductive pyfloat : Type :=
| Num (r : R)
| NaN.

Definition lift1 (f : R -> R) (a : pyfloat) : pyfloat :=
  match a with
  | Num r => Num (f r)
  | NaN => NaN
  end.

Definition lift2 (f : R -> R -> R) (a b : pyfloat) : pyfloat :=
  match a, b with
  | Num r, Num s => Num (f r s)
  | _, _ => NaN
  end.

Definition fne (a b : pyfloat) : bool :=
  match a, b with
  | Num r, Num s => Rneb r s
  | _, _ => true
  end.

Definition fgt (a b : pyfloat) : bool :=
  match a, b with
  | Num r, Num s => Rgtb r s
  | _, _ => false
  end.

(** [xyz_to_lonlatalt] as the emitter calls it, on columns that may hold
    [NaN]; on numbers it is [xyz_to_lonlatalt]. *)
Definition xyz_to_lonlatalt_nan (x y z : pyfloat) : pyfloat * pyfloat * pyfloat :=
  let r_xy := lift2 hypot x y in
  let r := lift1 sqrt (lift2 Rplus (lift2 Rplus (lift2 Rmult x x) (lift2 Rmult y y))
                                   (lift2 Rmult z z)) in
  let lon := lift1 degrees (lift2 atan2 y x) in
  let lat :=
    if fne r_xy (Num 0)
    then lift1 degrees (lift2 atan2 z r_xy)
    else (if fgt z (Num 0) then Num 90.0 else Num (-90.0)) in
  let alt_m := lift2 Rmult r (Num SCALE_M_PER_AU) in
  (lon, lat, alt_m).

(** *** Cells of a table read without header *)

Inductive cell : Type :=
| Field (s : string)
| Missing.

(** [str(t)] of a date cell; a missing one is the float [NaN]. *)
Definition cell_text (t : cell) : string :=
  match t with
  | Field s => s
  | Missing => "nan"
  end.

(** One series: [(name, T, X, Y, Z)]. *)
Definition series : Type :=
  string * list cell * list pyfloat * list pyfloat * list pyfloat.

(** *** Templates *)

Definition KML_HEADER : string :=
  unlines
    [ ("<?xml version=" ++ dq ++ "1.0" ++ dq ++ " encoding=" ++ dq ++ "UTF-8" ++ dq ++ "?>")%string
    ; ("<kml xmlns=" ++ dq ++ "http://www.opengis.net/kml/2.2" ++ dq)%string
    ; ("     xmlns:gx=" ++ dq ++ "http://www.google.com/kml/ext/2.2" ++ dq ++ ">")%string
    ; "  <Document>"%string
    ; ("    <name>Solar System Trajectories (Scale 1:" ++ str_Z SCALE_DENOMINATOR ++ ")</name>")%string
    ; "    <Snippet>Heliocentric positions mapped to non-geographic KML. AltitudeMode=absolute.</Snippet>"%string
    ; "    <open>1</open>"%string ].

Definition KML_FOOTER : string :=
  unlines [ "  </Document>"%string ; "</kml>"%string ].

(** [STYLE_TEMPLATE.format(style_id=..., width=...)] *)
Definition STYLE_TEMPLATE (style_id width : string) : string :=
  unlines
    [ ""%string
    ; ("    <Style id=" ++ dq ++ style_id ++ dq ++ ">")%string
    ; "      <LineStyle>"%string
    ; ("        <width>" ++ width ++ "</width>")%string
    ; "      </LineStyle>"%string
    ; "      <PolyStyle>"%string
    ; "        <fill>0</fill>"%string
    ; "        <outline>1</outline>"%string
    ; "      </PolyStyle>"%string
    ; "    </Style>"%string ].

(** [PLACEMARK_TEMPLATE.format(name=..., style_id=..., when_coords=...)] *)
Definition PLACEMARK_TEMPLATE (name style_id when_coords : string) : string :=
  unlines
    [ ""%string
    ; "    <Placemark>"%string
    ; ("      <name>" ++ name ++ "</name>")%string
    ; ("      <styleUrl>#" ++ style_id ++ "</styleUrl>")%string
    ; "      <gx:Track>"%string
    ; when_coords
    ; "      </gx:Track>"%string
    ; "    </Placemark>"%string ].

(** [f"s{idx+1}"] *)
Definition style_id (idx : nat) : string := ("s" ++ str_nat (idx + 1))%string.

(** [str(1.5)] *)
Definition width_text : string := "1.5".

Section Emitter.

(** [format(v, ".{digits}f")] of a number *)
Variable format_f : nat -> R -> string.

Definition fmt (digits : nat) (v : pyfloat) : string :=
  match v with
  | Num r => format_f digits r
  | NaN => "nan"
  end.

Definition when_line (t : cell) : string :=
  ("        <when>" ++ cell_text t ++ "</when>")%string.

Definition coord_line (lon lat alt_m : pyfloat) : string :=
  ("        <gx:coord>" ++ fmt 9 lon ++ " " ++ fmt 9 lat ++ " " ++ fmt 3 alt_m
     ++ "</gx:coord>")%string.

(** The list [lines] at the end of the loop of [make_when_coords]. *)
Definition when_coords_lines (times : list cell) (X Y Z : list pyfloat) : list string :=
  fold_left
    (fun lines '(t, x, y, z) =>
       let '(lon, lat, alt_m) := xyz_to_lonlatalt_nan x y z in
       (lines ++ [when_line t]) ++ [coord_line lon lat alt_m])
    (zip4 times X Y Z) [].

Definition make_when_coords (times : list cell) (X Y Z : list pyfloat) : string :=
  join nl (when_coords_lines times X Y Z).

(** The list [parts] at the end of [build_kml]. *)
Definition build_kml_parts (ss : list series) : list string :=
  let parts := [KML_HEADER] in
  let parts :=
    fold_left
      (fun parts '(idx, _) => parts ++ [STYLE_TEMPLATE (style_id idx) width_text])
      (enumerate ss) parts in
  let parts :=
    fold_left
      (fun parts '(idx, (name, T, X, Y, Z)) =>
         let when_coords := make_when_coords T X Y Z in
         parts ++ [PLACEMARK_TEMPLATE name (style_id idx) when_coords])
      (enumerate ss) parts in
  parts ++ [KML_FOOTER].

Definition build_kml (ss : list series) : string :=
  join EmptyString (build_kml_parts ss).

(** What the loops append: the two lines of a sample, the style block of an
    index and the track block of an indexed series. *)
Definition sample_lines (s : cell * pyfloat * pyfloat * pyfloat) : list string :=
  let '(t, x, y, z) := s in
  let '(lon, lat, alt_m) := xyz_to_lonlatalt_nan x y z in
  [when_line t; coord_line lon lat alt_m].

Definition style_block (idx : nat) : string :=
  STYLE_TEMPLATE (style_id idx) width_text.

Definition track_block (entry : nat * series) : string :=
  let '(idx, (name, T, X, Y, Z)) := entry in
  PLACEMARK_TEMPLATE name (style_id idx) (make_when_coords T X Y Z).

(** The samples of a series: the tuples that [zip] yields. *)
Definition samples_of (s : series) : list (cell * pyfloat * pyfloat * pyfloat) :=
  let '(_, T, X, Y, Z) := s in zip4 T X Y Z.

End Emitter.

(** *** Loader: [pd.read_csv(csv_path, header=None, comment="#")]

    The part of the reader that [load_vectors] relies on, after the pandas
    user guide and tokenizer: lines are separated by newlines; blank lines
    and lines that begin with the comment character are skipped; the rest of
    a line from a comment character on is dropped; fields are separated by
    commas (quoting is not modelled); a field with one of the default
    missing-value spellings is [Missing]; the first data row fixes the
    number of columns; "lines with too few fields will have NA values filled
    in the trailing fields, lines with too many fields will raise an
    error". *)

Record DataFrame : Type := { width : nat; rows : list (list cell) }.

Definition na_values : list string :=
  [ ""; "#N/A"; "#N/A N/A"; "#NA"; "-1.#IND"; "-1.#QNAN"; "-NaN"; "-nan";
    "1.#IND"; "1.#QNAN"; "<NA>"; "N/A"; "NA"; "NULL"; "NaN"; "None"; "n/a";
    "nan"; "null" ]%string.

Definition to_cell (field : string) : cell :=
  if existsb (String.eqb field) na_values then Missing else Field field.

Definition is_space (c : ascii) : bool :=
  (Ascii.eqb c " " || Ascii.eqb c "009")%char.

Fixpoint all_chars (f : ascii -> bool) (s : string) : bool :=
  match s with
  | EmptyString => true
  | String c s' => f c && all_chars f s'
  end.

Definition blank_line (line : string) : bool := all_chars is_space line.
Definition comment_line (line : string) : bool := starts_with "#" line.

Fixpoint strip_comment (line : string) : string :=
  match line with
  | EmptyString => EmptyString
  | String c s' => if Ascii.eqb c "#" then EmptyString else String c (strip_comment s')
  end.

Definition data_lines (lines : list string) : list string :=
  filter (fun l => negb (blank_line l || comment_line l)) lines.

Definition tokenize (line : string) : list cell :=
  map to_cell (split_on "," (strip_comment line)).

Fixpoint pad_rows (w : nat) (rs : list (list cell)) : result (list (list cell)) :=
  match rs with
  | [] => Ok []
  | r :: rest =>
      if (w <? List.length r)%nat then Raise ParserError
      else rest' <- pad_rows w rest ;;
           Ok ((r ++ repeat Missing (w - List.length r)) :: rest')
  end.

Definition read_csv_lines (lines : list string) : result DataFrame :=
  match map tokenize (data_lines lines) with
  | [] => Raise EmptyDataError
  | r0 :: rest =>
      rest' <- pad_rows (List.length r0) rest ;;
      Ok {| width := List.length r0; rows := r0 :: rest' |}
  end.

Definition read_csv (text : string) : result DataFrame :=
  read_csv_lines (split_on "010" text).

(** [df.iloc[:, idx]]: [IndexError] when a position is out of bounds. *)
Definition iloc_columns (df : DataFrame) (idx : list nat) : result DataFrame :=
  if forallb (fun i => (i <? width df)%nat) idx
  then Ok {| width := List.length idx;
             rows := map (fun r => map (fun i => nth i r Missing) idx) (rows df) |}
  else Raise IndexError.

(** [df[c]] for the column at position [i] *)
Definition column (df : DataFrame) (i : nat) : list cell :=
  map (fun r => nth i r Missing) (rows df).

Section Loader.

(** [float(s)]: the number a field denotes, [None] when it denotes none. *)
Variable float_of_string : string -> option R.

Definition cell_float (c : cell) : result pyfloat :=
  match c with
  | Missing => Ok NaN
  | Field s =>
      match float_of_string s with
      | Some v => Ok (Num v)
      | None => Raise ValueError
      end
  end.

(** What [astype(float)] makes of a cell. *)
Definition converts (c : cell) (v : pyfloat) : Prop :=
  match c with
  | Missing => v = NaN
  | Field s => exists r, float_of_string s = Some r /\ v = Num r
  end.

(** [col.astype(float)] *)
Fixpoint astype_float (col : list cell) : result (list pyfloat) :=
  match col with
  | [] => Ok []
  | c :: rest =>
      v <- cell_float c ;;
      vs <- astype_float rest ;;
      Ok (v :: vs)
  end.

Definition load_vectors_lines (lines : list string)
  : result (list cell * list pyfloat * list pyfloat * list pyfloat) :=
  df <- read_csv_lines lines ;;
  (* Columnas: 0=JD, 1=Fecha, 2=X, 3=Y, 4=Z *)
  df <- iloc_columns df [1; 2; 3; 4]%nat ;;
  X <- astype_float (column df 1) ;;
  Y <- astype_float (column df 2) ;;
  Z <- astype_float (column df 3) ;;
  Ok (column df 0, X, Y, Z).

Definition load_vectors (text : string)
  : result (list cell * list pyfloat * list pyfloat * list pyfloat) :=
  load_vectors_lines (split_on "010" text).

End Loader.

(** A data line of the text splits into fewer than five fields. *)
Definition has_short_row (text : string) : bool :=
  existsb (fun l => (List.length (tokenize l) <? 5)%nat) (data_lines (split_on "010" text)).

(** A conversion for unsigned decimal integers, enough for the examples. *)
Definition float_of_digits (s : string) : option R :=
  match s with
  | EmptyString => None
  | _ => option_map (fun u => IZR (Z.of_uint u)) (NilEmpty.uint_of_string s)
  end.

(** *** The driver: files, output and [main] *)

Inductive event : Type :=
| FileRead (path : string)
| FileWrite (path : string)
| Printed (line : string).

Record world : Type := { files : list (string * string); log : list event }.

(** An action on the world that returns a value or raises. *)
Definition IO (A : Type) : Type := world -> result A * world.

Definition ret {A : Type} (a : A) : IO A := fun w => (Ok a, w).
Definition raise {A : Type} (e : exn) : IO A := fun w => (Raise e, w).
Definition lift {A : Type} (r : result A) : IO A := fun w => (r, w).

Definition bindIO {A B : Type} (m : IO A) (k : A -> IO B) : IO B :=
  fun w =>
    match m w with
    | (Ok a, w') => k a w'
    | (Raise e, w') => (Raise e, w')
    end.

Definition record (e : event) (w : world) : world :=
  {| files := files w; log := log w ++ [e] |}.

Fixpoint lookup (path : string) (fs : list (string * string)) : option string :=
  match fs with
  | [] => None
  | (p, text) :: rest => if String.eqb p path then Some text else lookup path rest
  end.

(** Opening a file for reading and reading it whole. *)
Definition read_text (path : string) : IO string :=
  fun w =>
    let w' := record (FileRead path) w in
    match lookup path (files w) with
    | Some text => (Ok text, w')
    | None => (Raise (FileNotFoundError path), w')
    end.

(** [Path.write_text] *)
Definition write_text (path text : string) : IO unit :=
  fun w =>
    (Ok tt, {| files := (path, text) :: files w; log := log w ++ [FileWrite path] |}).

Definition print (line : string) : IO unit :=
  fun w => (Ok tt, record (Printed line) w).

(** The parsed command line: [args.inputs], [args.names], [args.output]. *)
Record Namespace : Type :=
  { inputs : list string; names : list string; output : string }.

Definition mismatch_message : string :=
  "--inputs and --names must have the same length.".

(** The check mark that opens the confirmation line (UTF-8). *)
Definition check_mark : string :=
  String "226" (String "156" (String "148" EmptyString)).

Section Driver.

Variable float_of_string : string -> option R.
Variable format_f : nat -> R -> string.
(** [Path.resolve]: the absolute form of a path. *)
Variable resolve : string -> string.

(** [load_vectors(Path(inp))] with the read of the file made explicit. *)
Definition load_vectors_io (path : string)
  : IO (list cell * list pyfloat * list pyfloat * list pyfloat) :=
  bindIO (read_text path) (fun text => lift (load_vectors float_of_string text)).

(** The loop that fills [series]. *)
Fixpoint load_all (pairs : list (string * string)) (acc : list series)
  : IO (list series) :=
  match pairs with
  | [] => ret acc
  | (inp, name) :: rest =>
      bindIO (load_vectors_io inp)
             (fun '(T, X, Y, Z) => load_all rest (acc ++ [(name, T, X, Y, Z)]))
  end.

Definition main (args : Namespace) : IO unit :=
  if negb (List.length (inputs args) =? List.length (names args))%nat
  then raise (SystemExit mismatch_message)
  else
    bindIO (load_all (combine (inputs args) (names args)) []) (fun ss =>
    let kml := build_kml format_f ss in
    let out_path := output args in
    bindIO (write_text out_path kml) (fun _ =>
    bindIO (print (check_mark ++ " KML escrito en: " ++ resolve out_path)%string) (fun _ =>
    print ("Escala: 1:" ++ str_Z SCALE_DENOMINATOR ++ "  |  "
             ++ format_f 6 SCALE_M_PER_AU ++ " m por UA")%string))).

End Driver.

End Voyagers.

(** ** The state of the decimation loop and the fields of a line *)

Module GenerarAux.
Import Py PyMath Generar.

(** The value of [last_point] once the loop has walked [samples]. *)
Fixpoint last_point_after (d : R) (last_point : option point) (samples : list point)
  : option point :=
  match samples with
  | [] => last_point
  | p :: rest =>
      if keeps d last_point p
      then last_point_after d (Some p) rest
      else last_point_after d last_point rest
  end.

(** How many times a character occurs in a text. *)
Fixpoint occurrences (c : ascii) (s : string) : nat :=
  match s with
  | EmptyString => 0
  | String a s' => (if Ascii.eqb a c then 1 else 0) + occurrences c s'
  end.

End GenerarAux.

(** ** [infer_xyz_columns] and the pure reading of the driver's loop *)

Module VoyagersAux.
Import Py PyMath Voyagers.

(** [c.lower()] on the letters A to Z; no other character lower-cases to
    [x], [y] or [z]. *)
Definition lower_char (c : ascii) : ascii :=
  let n := nat_of_ascii c in
  if ((65 <=? n) && (n <=? 90))%nat then ascii_of_nat (n + 32) else c.

Fixpoint lower (s : string) : string :=
  match s with
  | EmptyString => EmptyString
  | String c s' => String (lower_char c) (lower s')
  end.

(** A [dict] with text keys: [d[k] = v] replaces the value of a key already
    there, [d.get(k)] finds it. *)
Fixpoint dict_set (k v : string) (d : list (string * string)) : list (string * string) :=
  match d with
  | [] => [(k, v)]
  | (k', v') :: rest =>
      if String.eqb k' k then (k', v) :: rest else (k', v') :: dict_set k v rest
  end.

Fixpoint dict_get (k : string) (d : list (string * string)) : option string :=
  match d with
  | [] => None
  | (k', v') :: rest => if String.eqb k' k then Some v' else dict_get k rest
  end.

(** [{c.lower(): c for c in columns}] *)
Definition lower_index (columns : list string) : list (string * string) :=
  fold_left (fun cols c => dict_set (lower c) c cols) columns [].

(** [infer_xyz_columns(df)] as a function of [df.columns].  The membership
    test of a key and its subscript are one lookup here: the keys are tried
    in the order [x], [y], [z] and the first one missing raises
    [ValueError]. *)
Definition infer_xyz_columns (columns : list string) : result (string * string * string) :=
  let cols := lower_index columns in
  match dict_get "x" cols with
  | None => Raise ValueError
  | Some cx =>
      match dict_get "y" cols with
      | None => Raise ValueError
      | Some cy =>
          match dict_get "z" cols with
          | None => Raise ValueError
          | Some cz => Ok (cx, cy, cz)
          end
      end
  end.

(** The last column whose lower-case form is [k]. *)
Definition last_named (k : string) (columns : list string) : option string :=
  find (fun c => String.eqb (lower c) k) (rev columns).

Definition is_nan (v : pyfloat) : bool :=
  match v with
  | NaN => true
  | Num _ => false
  end.

(** The two lines [main] prints after it wrote the document. *)
Definition confirmation (format_f : nat -> R -> string) (resolve : string -> string)
  (out_path : string) : list event :=
  [ Printed (check_mark ++ " KML escrito en: " ++ resolve out_path)%string
  ; Printed ("Escala: 1:" ++ str_Z SCALE_DENOMINATOR ++ "  |  "
               ++ format_f 6%nat SCALE_M_PER_AU ++ " m por UA")%string ].

Section Loads.
Variable float_of_string : string -> option R.

(** What loading one input gives in a file system [fs]. *)
Definition load_file (fs : list (string * string)) (path : string)
  : result (list cell * list pyfloat * list pyfloat * list pyfloat) :=
  match lookup path fs with
  | Some text => load_vectors float_of_string text
  | None => Raise (FileNotFoundError path)
  end.

(** The series of all inputs, or the exception of the first input that does
    not load. *)
Fixpoint load_series (fs : list (string * string)) (pairs : list (string * string))
  : result (list series) :=
  match pairs with
  | [] => Ok []
  | (inp, name) :: rest =>
      v <- load_file fs inp ;;
      ss <- load_series fs rest ;;
      let '(T, X, Y, Z) := v in
      Ok ((name, T, X, Y, Z) :: ss)
  end.

(** The inputs opened: all of them, or those up to the first that does not
    load. *)
Fixpoint attempted (fs : list (string * string)) (pairs : list (string * string))
  : list string :=
  match pairs with
  | [] => []
  | (inp, _) :: rest =>
      inp :: match load_file fs inp with
             | Ok _ => attempted fs rest
             | Raise _ => []
             end
  end.

End Loads.

End VoyagersAux.

(** ** Binary64: Python's [float] and the [math] functions on it

    The arithmetic of a Python [float] is that of IEEE 754 binary64, which
    is the arithmetic of the primitive type [float]: [+], [-], [*], [/],
    [sqrt] and the comparisons round and compare as the interpreter does.
    The functions of [math] are CPython's wrappers (Modules/mathmodule.c,
    Objects/floatobject.c); where a wrapper hands over to the C library
    ([pow], [atan2]) or to a summation loop ([hypot]), that part is an
    argument of the definition. *)

Module Float64.
Import Py.

#[local] Set Warnings "-inexact-float".
Local Open Scope float_scope.

(** [a > b] and [a != b] *)
Definition gt (a b : float) : bool := b <? a.
Definition ne (a b : float) : bool := negb (a =? b).

(** [copysign(m, s)] of C, for an [s] that is not NaN *)
Definition copysign (m s : float) : float :=
  if get_sign s then - abs m else abs m.

(** [Py_MATH_PI] *)
Definition pi : float := 0x1.921fb54442d18p+1.

(** [x ** 2] ([float_pow] with the exponent 2.0): NaN, the infinities, zero
    and one are answered without the C library; otherwise the result is
    [pow(|x|, 2.0)], and an infinite result raises [OverflowError]. *)
Definition float_pow2 (c_pow : float -> float -> float) (x : float)
  : result float :=
  if is_nan x then Ok x
  else if is_infinity x then Ok (abs x)
  else if x =? 0 then Ok 0
  else if abs x =? 1 then Ok 1
  else
    let r := c_pow (abs x) 2 in
    if is_infinity r then Raise OverflowError else Ok r.

(** [math.sqrt(x)]: the IEEE square root; a NaN result for an argument that
    is not NaN is a domain error. *)
Definition math_sqrt (x : float) : result float :=
  let r := PrimFloat.sqrt x in
  if is_nan r && negb (is_nan x) then Raise ValueError else Ok r.

(** [math.degrees(x)] *)
Definition radToDeg : float := 180 / pi.
Definition math_degrees (x : float) : float := x * radToDeg.

(** [m_atan2(y, x)]: the special cases CPython settles itself, then C's
    [atan2]. *)
Definition m_atan2 (c_atan2 : float -> float -> float) (y x : float) : float :=
  if is_nan x || is_nan y then nan
  else if is_infinity y then
    if is_infinity x then
      if copysign 1 x =? 1 then copysign (0.25 * pi) y
      else copysign (0.75 * pi) y
    else copysign (0.5 * pi) y
  else if is_infinity x || (y =? 0) then
    if copysign 1 x =? 1 then copysign 0 y
    else copysign pi y
  else c_atan2 y x.

(** [math.atan2(y, x)]: [m_atan2] under the check of [math_2], which turns
    a NaN result for arguments that are not NaN into [ValueError] and an
    infinite result for finite arguments into [OverflowError]. *)
Definition math_atan2 (c_atan2 : float -> float -> float) (y x : float)
  : result float :=
  let r := m_atan2 c_atan2 y x in
  if is_nan r && negb (is_nan x) && negb (is_nan y) then Raise ValueError
  else if is_infinity r && is_finite x && is_finite y then Raise OverflowError
  else Ok r.

(** [math.hypot(x, y)] (CPython 3.8 and later): the largest magnitude decides
    the infinite, NaN and zero cases; [norm] is the summation of
    [vector_norm] on the two magnitudes. *)
Definition math_hypot (norm : float -> float -> float) (x y : float) : float :=
  let ax := abs x in
  let ay := abs y in
  let max := if gt ax 0 then ax else 0 in
  let max := if gt ay max then ay else max in
  if is_infinity max then max
  else if is_nan ax || is_nan ay then nan
  else if max =? 0 then max
  else norm ax ay.

(** *** Signs of the values of [spec_float]

    The value is not negative: a zero, a positive number, plus infinity,
    or NaN. *)
Definition notneg (x : spec_float) : bool :=
  match x with
  | S754_nan | S754_zero _ => true
  | S754_infinity s | S754_finite s _ _ => negb s
  end.

Definition notnan (x : spec_float) : bool :=
  match x with
  | S754_nan => false
  | _ => true
  end.



(** *** Rounding, bit by bit

    [mrs] is what is left of the integer [P] after [k] bits went out at
    the right: its mantissa is the quotient, and the two bits that record
    what went out are set only if something did. *)
Definition shifted (P k : Z) (mrs : shr_record) : Prop :=
  (0 <= shr_m mrs)%Z /\
  exists rest : Z,
    P = (shr_m mrs * 2 ^ k + rest)%Z /\
    (0 <= rest < 2 ^ k)%Z /\
    (shr_r mrs || shr_s mrs = true -> 0 < rest)%Z.

(** The numbers [mB * 2^eB], [mc * 2^ec] and [mF * 2^eF] are such that
    the product of the first two, taken exactly, is at most the third, which
    is a normal binary64 number; the first has a full mantissa. *)
Definition product_below (mB : positive) (eB : Z) (mc : positive) (ec : Z)
  (mF : positive) (eF : Z) : bool :=
  ((2 ^ 52 <=? Zpos mB) && (Zpos mF <? 2 ^ 53)
   && (0 <=? eF - eB - ec) && (-1074 <=? eF) && (eF <=? 971)
   && (Zpos mB * Zpos mc <=? Zpos mF * 2 ^ (eF - eB - ec)))%Z.

(** *** Functions standing for the C library in closed examples *)

(** The correctly rounded square, for [pow(x, 2.0)] *)
Definition square_pow (x y : float) : float := x * x.

(** The textbook norm, for the summation of [vector_norm] *)
Definition plain_norm (x y : float) : float := PrimFloat.sqrt (x * x + y * y).

(** An [atan2] that knows the axes and the diagonals only *)
Definition coarse_atan2 (y x : float) : float :=
  if x <? 0 then copysign (0.75 * pi) y else copysign (0.25 * pi) y.

(** *** [float(s)] on decimal literals

    [float_of_decimal] reads an optional sign, digits, an optional
    fraction and an optional exponent, between optional blanks, and rounds
    the rational it denotes to the nearest binary64 value (ties to even).
    It is the instance of [float(s)] used in the closed examples; the words
    [inf] and [nan], underscores and hexadecimal digits are outside it. *)

Definition is_blank (c : ascii) : bool :=
  let n := nat_of_ascii c in
  ((9 <=? n)%nat && (n <=? 13)%nat) || (n =? 32)%nat.

Fixpoint lstrip (s : string) : string :=
  match s with
  | String c s' => if is_blank c then lstrip s' else s
  | EmptyString => s
  end.

Fixpoint rstrip (s : string) : string :=
  match s with
  | String c s' =>
      match rstrip s' with
      | EmptyString => if is_blank c then EmptyString else String c EmptyString
      | t => String c t
      end
  | EmptyString => s
  end.

Definition digit_value (c : ascii) : option Z :=
  let n := nat_of_ascii c in
  if ((48 <=? n)%nat && (n <=? 57)%nat)%bool then Some (Z.of_nat (n - 48)) else None.

(** The digits at the head of [s]: their value so far, how many were read,
    and the rest of the text. *)
Fixpoint read_digits (s : string) (acc : Z) (count : nat) : Z * nat * string :=
  match s with
  | String c s' =>
      match digit_value c with
      | Some d => read_digits s' (10 * acc + d)%Z (S count)
      | None => (acc, count, s)
      end
  | EmptyString => (acc, count, s)
  end.

Definition read_sign (s : string) : bool * string :=
  match s with
  | String "-"%char s' => (true, s')
  | String "+"%char s' => (false, s')
  | _ => (false, s)
  end.

(** The nearest binary64 value to [n * 10 ^ e], with sign [s]. *)
Definition round_decimal (s : bool) (n e : Z) : float :=
  match n with
  | Z0 => if s then PrimFloat.neg_zero else PrimFloat.zero
  | _ =>
      let num := (n * 10 ^ Z.max 0 e)%Z in
      let den := (10 ^ Z.max 0 (- e))%Z in
      let '(q, e2, l) := SFdiv_core_binary prec emax num 0 den 0 in
      SF2Prim (binary_round_aux prec emax s q e2 l)
  end.

Definition float_of_decimal (text : string) : option float :=
  let '(neg, s1) := read_sign (rstrip (lstrip text)) in
  let '(int_part, n1, s2) := read_digits s1 0 0 in
  let '(mant, n2, s3) :=
    match s2 with
    | String "."%char t => read_digits t int_part 0
    | _ => (int_part, O, s2)
    end in
  if (n1 + n2 =? 0)%nat then None
  else
    match s3 with
    | EmptyString => Some (round_decimal neg mant (- Z.of_nat n2))
    | String c t =>
        if (Ascii.eqb c "e" || Ascii.eqb c "E")%bool then
          let '(eneg, t1) := read_sign t in
          let '(ex, n3, t2) := read_digits t1 0 0 in
          match n3, t2 with
          | S _, EmptyString =>
              Some (round_decimal neg mant ((if eneg then - ex else ex) - Z.of_nat n2))
          | _, _ => None
          end
        else None
    end.

(** *** The exact value of a finite binary64 number, as a fraction
    [num / 2 ^ sh] *)

Definition exact (x : float) : option (Z * Z) :=
  match Prim2SF x with
  | S754_zero _ => Some (0, 0)%Z
  | S754_finite s m e =>
      let v := if s then Zneg m else Zpos m in
      if (0 <=? e)%Z then Some (v * 2 ^ e, 0)%Z else Some (v, - e)%Z
  | _ => None
  end.

(** [a / 2 ^ i - b / 2 ^ j], squares, sums and the order of such fractions *)
Definition frac_sub (a b : Z * Z) : Z * Z :=
  let k := Z.max (snd a) (snd b) in
  (fst a * 2 ^ (k - snd a) - fst b * 2 ^ (k - snd b), k)%Z.
Definition frac_add (a b : Z * Z) : Z * Z :=
  let k := Z.max (snd a) (snd b) in
  (fst a * 2 ^ (k - snd a) + fst b * 2 ^ (k - snd b), k)%Z.
Definition frac_sqr (a : Z * Z) : Z * Z := (fst a * fst a, 2 * snd a)%Z.
Definition frac_ltb (a b : Z * Z) : bool :=
  let k := Z.max (snd a) (snd b) in
  (fst a * 2 ^ (k - snd a) <? fst b * 2 ^ (k - snd b))%Z.

(** The square of the distance between two points with binary64
    coordinates, without rounding; [None] when a coordinate is not finite. *)
Definition exact_sqdist (p q : float * float) : option (Z * Z) :=
  match exact (fst p), exact (snd p), exact (fst q), exact (snd q) with
  | Some px, Some py, Some qx, Some qy =>
      Some (frac_add (frac_sqr (frac_sub px qx)) (frac_sqr (frac_sub py qy)))
  | _, _, _, _ => None
  end.

End Float64.

(** ** [generar_kml.py] in binary64 *)

Module Generar64.
Import Py Float64.

#[local] Set Warnings "-inexact-float".
Local Open Scope float_scope.

Definition point : Type := float * float.

Definition line_skip : nat := 2.
Definition min_distance : float := 1e2.
(** An [int] in the source; [x / factor_escala] divides by the same value
    as a float. *)
Definition factor_escala : float := 174000000.
Definition sun_lat : float := -25.280945.
Definition sun_lon : float := -57.609083.

Section Script.

(** C's [pow], behind [**] *)
Variable c_pow : float -> float -> float.
(** [float(s)]: the value of a field, [None] when [float] raises. *)
Variable float_of_string : string -> option float.

(** [distance]: raises when a squared difference overflows. *)
Definition distance (p1 p2 : point) : result float :=
  a <- float_pow2 c_pow (fst p1 - fst p2) ;;
  b <- float_pow2 c_pow (snd p1 - snd p2) ;;
  math_sqrt (a + b).

(** [last_point is None or distance((x, y), last_point) > min_distance] *)
Definition keeps (last_point : option point) (p : point) : result bool :=
  match last_point with
  | None => Ok true
  | Some q => d <- distance p q ;; Ok (gt d min_distance)
  end.

Definition to_float (s : string) : result float :=
  match float_of_string s with
  | Some v => Ok v
  | None => Raise ValueError
  end.

(** The body of the loop up to the test: the sample of a line. *)
Definition parse_line (line : string) : result point :=
  let parts := split_on ","%char line in
  f2 <- getitem parts 2 ;;
  x <- to_float f2 ;;
  f3 <- getitem parts 3 ;;
  y <- to_float f3 ;;
  Ok (x, y).

(** The loop of the script: [filtered_points] and [last_point] are its two
    variables. *)
Fixpoint filter_loop (lines : list string) (filtered_points : list point)
  (last_point : option point) : result (list point) :=
  match lines with
  | [] => Ok filtered_points
  | line :: rest =>
      p <- parse_line line ;;
      k <- keeps last_point p ;;
      if k
      then filter_loop rest (filtered_points ++ [p]) (Some p)
      else filter_loop rest filtered_points last_point
  end.

(** [filtered_points] at the end of the script, from the characters of the
    input file. *)
Definition filtered_points (text : string) : result (list point) :=
  lines <- slice_step (readlines text) line_skip ;;
  filter_loop lines [] None.

(** The samples of the lines, when every line has one. *)
Fixpoint parse_lines (lines : list string) : result (list point) :=
  match lines with
  | [] => Ok []
  | line :: rest =>
      p <- parse_line line ;;
      ps <- parse_lines rest ;;
      Ok (p :: ps)
  end.

(** The loop on samples already read. *)
Fixpoint prune (last_point : option point) (samples : list point)
  : result (list point) :=
  match samples with
  | [] => Ok []
  | p :: rest =>
      k <- keeps last_point p ;;
      if k
      then (out <- prune (Some p) rest ;; Ok (p :: out))
      else prune last_point rest
  end.

(** The test of the loop on a pair of neighbours of the output: the
    distance the script computes from the earlier to the later one exceeds
    [min_distance]. *)
Definition apart (p q : point) : Prop :=
  exists d, distance q p = Ok d /\ gt d min_distance = true.

(** The first sample kept after [last] passed the test against [last]. *)
Definition passed (last : option point) (out : list point) : Prop :=
  match last, out with
  | Some q, p :: _ => apart q p
  | _, _ => True
  end.

End Script.

End Generar64.

(** ** [xyz_to_lonlatalt] in binary64 *)

Module Voyagers64.
Import Py Float64.

#[local] Set Warnings "-inexact-float".
Local Open Scope float_scope.

(** An [int] in the source; the division converts it to the same value. *)
Definition SCALE_DENOMINATOR : float := 174000000.
Definition AU_METERS : float := 149597870000.0.
Definition SCALE_M_PER_AU : float := AU_METERS / SCALE_DENOMINATOR.

Section Libm.

(** C's [atan2] and the summation of [vector_norm] *)
Variable c_atan2 : float -> float -> float.
Variable norm : float -> float -> float.

Definition xyz_to_lonlatalt (x y z : float) : result (float * float * float) :=
  let r_xy := math_hypot norm x y in
  r <- math_sqrt (x * x + y * y + z * z) ;;
  a <- math_atan2 c_atan2 y x ;;
  let lon := math_degrees a in
  lat <- (if ne r_xy 0
          then (b <- math_atan2 c_atan2 z r_xy ;; Ok (math_degrees b))
          else Ok (if gt z 0 then 90.0 else -90.0)) ;;
  let alt_m := r * SCALE_M_PER_AU in
  Ok (lon, lat, alt_m).

End Libm.



End Voyagers64.

(** ** Blocks and records of the emitted text

    A block or a record of the document is recognised by its opening tag;
    the number of blocks is the number of places of the text where the tag
    begins. *)

Module Markup.
Import Py Voyagers.

(** The places of [s] where [pat] begins. *)
Fixpoint count_text (pat s : string) : nat :=
  match s with
  | EmptyString => 0
  | String _ s' => (if starts_with pat s then 1 else 0) + count_text pat s'
  end.

Definition style_tag : string := "<Style id=".
Definition placemark_tag : string := "<Placemark>".
Definition track_tag : string := "<gx:Track>".
Definition when_tag : string := "<when>".
Definition coord_tag : string := "<gx:coord>".

(** [s] holds no [<]. *)
Fixpoint no_lt (s : string) : bool :=
  match s with
  | EmptyString => true
  | String c s' => negb (Ascii.eqb c "<"%char) && no_lt s'
  end.

(** A series whose name and dates are text without markup. *)
Definition plain_series (s : series) : Prop :=
  let '(name, T, _, _, _) := s in
  no_lt name = true /\ Forall (fun t => no_lt (cell_text t) = true) T.

(** Whether [pat] begins at the head of [u] is settled by [u] alone,
    whatever follows it: the comparison ends inside [u]. *)
Fixpoint settled (pat u : string) : bool :=
  match pat with
  | EmptyString => true
  | String a pat' =>
      match u with
      | EmptyString => false
      | String b u' => if Ascii.eqb a b then settled pat' u' else true
      end
  end.

(** No occurrence of [pat] can begin in [s] and end after it. *)
Fixpoint closed_for (pat s : string) : bool :=
  match s with
  | EmptyString => true
  | String _ s' => settled pat s && closed_for pat s'
  end.

(** The five tags, and for a text how often each begins in it, in the
    order style, placemark, track, time marker, coordinate record. *)
Definition tags : list string :=
  [style_tag; placemark_tag; track_tag; when_tag; coord_tag].

Definition counts (s : string) : list nat :=
  map (fun tag => count_text tag s) tags.

Definition closed_all (s : string) : bool :=
  forallb (fun tag => closed_for tag s) tags.

Definition add_counts (a b : list nat) : list nat :=
  map (fun '(x, y) => (x + y)%nat) (combine a b).

Definition sum_counts (l : list (list nat)) : list nat :=
  fold_right add_counts [0; 0; 0; 0; 0]%nat l.

End Markup.

(** ** The loop of [generar_kml.py] over exact arithmetic, and its affine
    projection *)

Module GenerarFacts.
Import Py PyMath Generar.

Lemma distance_sym (p q : point) : distance p q = distance q p.
Proof. unfold distance. f_equal. ring. Qed.

Lemma keeps_some (d : R) (q p : point) :
  keeps d (Some q) p = true <-> distance p q > d.
Proof.
  unfold keeps, Rgtb. destruct (Rgt_dec (distance p q) d); split; intros; auto; discriminate.
Qed.

Lemma prune_consecutive (d : R) (samples : list point) :
  forall last,
    far_from d last (prune d last samples) /\
    consecutive (fun p q => distance p q > d) (prune d last samples).
Proof.
  induction samples as [| p rest IH]; intros last; simpl.
  - destruct last; simpl; auto.
  - destruct (keeps d last p) eqn:Hk.
    + destruct (IH (Some p)) as [Hfar Hcons]. split.
      * destruct last as [q |]; simpl; [| exact I].
        rewrite distance_sym. apply keeps_some. exact Hk.
      * simpl. destruct (prune d (Some p) rest) as [| q out] eqn:Hout; [exact I |].
        split; [exact Hfar | exact Hcons].
    + apply IH.
Qed.

(** The loop of the script is the parse of every line followed by [prune]. *)
Section Script.
Variable float_of_string : string -> option R.

Lemma filter_loop_prune (lines : list string) :
  forall acc last,
    filter_loop float_of_string lines acc last =
    (samples <- parse_lines float_of_string lines ;;
     Ok (acc ++ prune min_distance last samples)).
Proof.
  induction lines as [| line rest IH]; intros acc last; simpl.
  - now rewrite app_nil_r.
  - destruct (parse_line float_of_string line) as [p | e]; simpl; [| reflexivity].
    destruct (keeps min_distance last p) eqn:Hk; rewrite IH;
      destruct (parse_lines float_of_string rest) as [ps | e]; simpl;
      try reflexivity; rewrite Hk; [now rewrite <- app_assoc | reflexivity].
Qed.

(** The script keeps [prune] of the samples of every second line. *)
Lemma filtered_points_prune (text : string) :
  filtered_points float_of_string text =
  (samples <- parse_lines float_of_string (every_nth line_skip 0 (readlines text)) ;;
   Ok (prune min_distance None samples)).
Proof.
  unfold filtered_points. simpl. apply filter_loop_prune.
Qed.

End Script.

(** C5. The planar projector is the affine offset
    [(sun_lon + x / factor_escala, sun_lat + y / factor_escala)]; with the
    constants of the script, [(174000000, 0)] goes to
    [(-56.609083, -25.280945)]. *)
Theorem affine_offset_projection (x y : R) :
  project (x, y) = (sun_lon + x / IZR factor_escala, sun_lat + y / IZR factor_escala) /\
  sun_lon = -57.609083 /\
  sun_lat = -25.280945 /\
  IZR factor_escala = 174000000 /\
  project (174000000, 0) = (-56.609083, -25.280945).
Proof.
  repeat split.
  unfold project, sun_lon, sun_lat, factor_escala. f_equal; lra.
Qed.

End GenerarFacts.

(** ** Properties of the real [math] functions *)

Module PyMathFacts.
Import PyMath.











End PyMathFacts.

(** ** The spherical projection over exact arithmetic *)

Module SphericalFacts.
Import Py PyMath PyMathFacts Voyagers.








End SphericalFacts.

(** ** The emitter *)

Module EmitterFacts.
Import Py PyMath Voyagers.

(** A loop that appends to a list builds the list of what it appends. *)
Lemma fold_left_append {A B : Type} (step : list B -> A -> list B) (g : A -> list B) :
  (forall acc a, step acc a = acc ++ g a) ->
  forall l init, fold_left step l init = init ++ flat_map g l.
Proof.
  intros Hstep. induction l as [| a l IH]; intros init; simpl.
  - now rewrite app_nil_r.
  - rewrite IH, Hstep. now rewrite <- app_assoc.
Qed.

Lemma flat_map_singleton {A B : Type} (g : A -> B) (l : list A) :
  flat_map (fun a => [g a]) l = map g l.
Proof. induction l as [| a l IH]; simpl; [reflexivity | now rewrite IH]. Qed.

Lemma map_fst_combine_seq {A : Type} (l : list A) :
  forall n, map fst (combine (seq n (List.length l)) l) = seq n (List.length l).
Proof. induction l as [| a l IH]; intros n; simpl; [reflexivity | now rewrite IH]. Qed.

Lemma enumerate_length {A : Type} (l : list A) :
  List.length (enumerate l) = List.length l.
Proof.
  unfold enumerate. rewrite length_combine, length_seq. apply Nat.min_id.
Qed.

Section Emitter.
Variable format_f : nat -> R -> string.

Lemma when_coords_lines_flat (T : list cell) (X Y Z : list pyfloat) :
  when_coords_lines format_f T X Y Z = flat_map (sample_lines format_f) (zip4 T X Y Z).
Proof.
  unfold when_coords_lines.
  rewrite (fold_left_append _ (sample_lines format_f)); [reflexivity |].
  intros acc [[[t x] y] z]. unfold sample_lines.
  destruct (xyz_to_lonlatalt_nan x y z) as [[lon lat] alt_m].
  now rewrite <- app_assoc.
Qed.

Lemma build_kml_parts_shape (ss : list series) :
  build_kml_parts format_f ss =
  [KML_HEADER] ++ map style_block (seq 0 (List.length ss))
    ++ map (track_block format_f) (enumerate ss) ++ [KML_FOOTER].
Proof.
  unfold build_kml_parts.
  rewrite (fold_left_append _ (fun e : nat * series => [track_block format_f e])).
  2:{ intros acc [idx [[[[name T] X] Y] Z]]. reflexivity. }
  rewrite (fold_left_append _ (fun e : nat * series => [style_block (fst e)])).
  2:{ intros acc [idx s]. reflexivity. }
  rewrite !flat_map_singleton. unfold enumerate.
  rewrite <- (map_map fst style_block), map_fst_combine_seq.
  now rewrite <- app_assoc.
Qed.

End Emitter.

End EmitterFacts.

(** ** The loader *)

Module LoaderFacts.
Import Py PyMath Voyagers.

Lemma data_lines_app (l1 l2 : list string) :
  data_lines (l1 ++ l2) = data_lines l1 ++ data_lines l2.
Proof. unfold data_lines. apply filter_app. Qed.

Lemma data_lines_comment (c : string) (rest : list string) :
  data_lines (String "#" c :: rest) = data_lines rest.
Proof.
  unfold data_lines. cbn [filter].
  replace (comment_line (String "#" c)) with true by reflexivity.
  now rewrite orb_true_r.
Qed.

Lemma pad_rows_width (w : nat) (rs : list (list cell)) :
  forall rs', pad_rows w rs = Ok rs' -> Forall (fun r => List.length r = w) rs'.
Proof.
  induction rs as [| r rs IH]; intros rs' H; simpl in H.
  - injection H as <-. constructor.
  - destruct (w <? List.length r)%nat eqn:Hlt; [discriminate |].
    destruct (pad_rows w rs) as [rest |]; simpl in H; [| discriminate].
    injection H as <-. constructor; [| apply IH; reflexivity].
    apply Nat.ltb_ge in Hlt. rewrite length_app, repeat_length. lia.
Qed.

(** A frame that was read has the width of its first data row. *)
Lemma read_csv_lines_width (lines : list string) (df : DataFrame) :
  read_csv_lines lines = Ok df ->
  exists r0 rest, map tokenize (data_lines lines) = r0 :: rest /\
                  width df = List.length r0.
Proof.
  unfold read_csv_lines. intros H.
  destruct (map tokenize (data_lines lines)) as [| r0 rest]; [discriminate |].
  destruct (pad_rows (List.length r0) rest) as [rest' |]; simpl in H; [| discriminate].
  injection H as <-. exists r0, rest. split; reflexivity.
Qed.

Lemma iloc_columns_narrow (df : DataFrame) :
  (width df < 5)%nat -> iloc_columns df [1; 2; 3; 4]%nat = Raise IndexError.
Proof.
  intros H. unfold iloc_columns. simpl.
  destruct (4 <? width df)%nat eqn:H4.
  - apply Nat.ltb_lt in H4. lia.
  - now rewrite !andb_false_r.
Qed.

Lemma iloc_columns_wide (df : DataFrame) :
  (5 <= width df)%nat ->
  exists df', iloc_columns df [1; 2; 3; 4]%nat = Ok df' /\
              column df' 0 = column df 1 /\ column df' 1 = column df 2 /\
              column df' 2 = column df 3 /\ column df' 3 = column df 4.
Proof.
  intros H. unfold iloc_columns. simpl.
  assert (H1 : (1 <? width df)%nat = true) by (apply Nat.ltb_lt; lia).
  assert (H2 : (2 <? width df)%nat = true) by (apply Nat.ltb_lt; lia).
  assert (H3 : (3 <? width df)%nat = true) by (apply Nat.ltb_lt; lia).
  assert (H4 : (4 <? width df)%nat = true) by (apply Nat.ltb_lt; lia).
  rewrite H1, H2, H3, H4. simpl.
  eexists. split; [reflexivity |].
  unfold column. simpl. rewrite !map_map. repeat split; reflexivity.
Qed.

Section Loader.
Variable float_of_string : string -> option R.

Lemma astype_float_converts (col : list cell) :
  forall vs, astype_float float_of_string col = Ok vs -> Forall2 (converts float_of_string) col vs.
Proof.
  induction col as [| c col IH]; intros vs H; simpl in H.
  - injection H as <-. constructor.
  - destruct (cell_float float_of_string c) as [v |] eqn:Hc; simpl in H; [| discriminate].
    destruct (astype_float float_of_string col) as [vs' |]; simpl in H; [| discriminate].
    injection H as <-. constructor; [| apply IH; reflexivity].
    destruct c as [s |]; simpl in *.
    + destruct (float_of_string s) as [r |]; [| discriminate].
      injection Hc as <-. exists r. split; reflexivity.
    + injection Hc as <-. reflexivity.
Qed.

Lemma load_vectors_lines_comment (before after : list string) (c : string) :
  load_vectors_lines float_of_string (before ++ String "#" c :: after) =
  load_vectors_lines float_of_string (before ++ after).
Proof.
  unfold load_vectors_lines, read_csv_lines.
  now rewrite !data_lines_app, data_lines_comment.
Qed.

Lemma load_vectors_lines_columns (lines : list string) (df : DataFrame) :
  read_csv_lines lines = Ok df ->
  (5 <= width df)%nat ->
  load_vectors_lines float_of_string lines =
  (X <- astype_float float_of_string (column df 2) ;;
   Y <- astype_float float_of_string (column df 3) ;;
   Z <- astype_float float_of_string (column df 4) ;;
   Ok (column df 1, X, Y, Z)).
Proof.
  intros Hread Hw. unfold load_vectors_lines. rewrite Hread. simpl.
  destruct (iloc_columns_wide df Hw) as (df' & -> & H0 & H1 & H2 & H3). simpl.
  now rewrite H0, H1, H2, H3.
Qed.

Lemma load_vectors_lines_first_row (lines : list string) (r0 : list cell)
  (rest : list (list cell)) :
  map tokenize (data_lines lines) = r0 :: rest ->
  (List.length r0 < 5)%nat ->
  exists e, load_vectors_lines float_of_string lines = Raise e.
Proof.
  intros Hrows Hshort. unfold load_vectors_lines, read_csv_lines. rewrite Hrows.
  destruct (pad_rows (List.length r0) rest) as [rest' | e]; simpl.
  - rewrite iloc_columns_narrow by exact Hshort. simpl. eexists. reflexivity.
  - eexists. reflexivity.
Qed.

(** C9, as amended.  The loader skips the lines that begin with [#],
    discards column 0 and returns columns 1 to 4 as dates and as floats (a
    missing field as [NaN]); it raises, with no result, whenever the first
    data row has fewer than five columns. *)
Theorem load_vectors_contract :
  (forall text,
      load_vectors float_of_string text =
      load_vectors_lines float_of_string (split_on "010" text)) /\
  (forall before c after,
      load_vectors_lines float_of_string (before ++ String "#" c :: after) =
      load_vectors_lines float_of_string (before ++ after)) /\
  (forall lines df,
      read_csv_lines lines = Ok df ->
      (5 <= width df)%nat ->
      load_vectors_lines float_of_string lines =
      (X <- astype_float float_of_string (column df 2) ;;
       Y <- astype_float float_of_string (column df 3) ;;
       Z <- astype_float float_of_string (column df 4) ;;
       Ok (column df 1, X, Y, Z))) /\
  (forall col vs,
      astype_float float_of_string col = Ok vs ->
      Forall2 (converts float_of_string) col vs) /\
  (forall lines r0 rest,
      map tokenize (data_lines lines) = r0 :: rest ->
      (List.length r0 < 5)%nat ->
      exists e, load_vectors_lines float_of_string lines = Raise e).
Proof.
  split; [reflexivity |].
  split; [intros; apply load_vectors_lines_comment |].
  split; [apply load_vectors_lines_columns |].
  split; [apply astype_float_converts |].
  apply load_vectors_lines_first_row.
Qed.

End Loader.

(** C9, as stated, fails: a row of three fields after a first row of five
    is filled up with missing values and the file loads. *)
Lemma load_vectors_short_row_loads :
  has_short_row ("0,d,1,2,3" ++ nl ++ "1,e,4" ++ nl) = true /\
  load_vectors float_of_digits ("0,d,1,2,3" ++ nl ++ "1,e,4" ++ nl) =
    Ok ([Field "d"; Field "e"], [Num 1; Num 4], [Num 2; NaN], [Num 3; NaN]).
Proof.
  split; vm_compute; reflexivity.
Qed.

Lemma load_vectors_contract_witness :
  load_vectors_lines float_of_digits
    ["# JD, date, X, Y, Z"; "0,d,1,2,3"; "1,e,4"]%string =
    Ok ([Field "d"; Field "e"], [Num 1; Num 4], [Num 2; NaN], [Num 3; NaN]) /\
  Forall2 (converts float_of_digits) [Field "1"; Missing] [Num 1; NaN] /\
  exists e, load_vectors_lines float_of_digits ["0,d,1,2"]%string = Raise e.
Proof.
  destruct (load_vectors_contract float_of_digits) as (_ & Hcomment & Hcols & Hconv & Hfirst).
  split; [| split].
  - change (load_vectors_lines float_of_digits
              ([] ++ String "#" " JD, date, X, Y, Z" :: ["0,d,1,2,3"; "1,e,4"]%string) =
            Ok ([Field "d"; Field "e"], [Num 1; Num 4], [Num 2; NaN], [Num 3; NaN])).
    rewrite Hcomment. cbn [app].
    rewrite (Hcols ["0,d,1,2,3"; "1,e,4"]%string
               {| width := 5;
                  rows := [[Field "0"; Field "d"; Field "1"; Field "2"; Field "3"];
                           [Field "1"; Field "e"; Field "4"; Missing; Missing]] |}).
    + vm_compute. reflexivity.
    + vm_compute. reflexivity.
    + simpl. lia.
  - apply Hconv. vm_compute. reflexivity.
  - apply (Hfirst ["0,d,1,2"]%string
                  [Field "0"; Field "d"; Field "1"; Field "2"] []).
    + vm_compute. reflexivity.
    + simpl. lia.
Defined.

End LoaderFacts.

(** ** The driver *)

Module DriverFacts.
Import Py PyMath Voyagers.

Section Driver.
Variable float_of_string : string -> option R.
Variable format_f : nat -> R -> string.
Variable resolve : string -> string.

(** C8. Argument-count check: when the numbers of [--inputs] and [--names]
    differ, [main] raises [SystemExit] with its message, which ends the
    program with a non-zero status, and leaves the world as it found it: no
    file was read, none was written. *)
Theorem main_rejects_mismatch (args : Namespace) (w : world) :
  List.length (inputs args) <> List.length (names args) ->
  main float_of_string format_f resolve args w
    = (Raise (SystemExit mismatch_message), w) /\
  exit_status (SystemExit mismatch_message) <> 0%Z /\
  log (snd (main float_of_string format_f resolve args w)) = log w /\
  files (snd (main float_of_string format_f resolve args w)) = files w.
Proof.
  intros Hlen.
  assert (Hmain : main float_of_string format_f resolve args w
                  = (Raise (SystemExit mismatch_message), w)).
  { unfold main.
    destruct (List.length (inputs args) =? List.length (names args))%nat eqn:Heq.
    - apply Nat.eqb_eq in Heq. contradiction.
    - reflexivity. }
  rewrite Hmain. split; [reflexivity |]. split; [discriminate |].
  split; reflexivity.
Qed.

End Driver.

Lemma main_rejects_mismatch_witness :
  List.length ["a.csv"; "b.csv"]%string <> List.length ["A"%string] /\
  main float_of_digits (fun _ _ => "0"%string) (fun p => p)
       {| inputs := ["a.csv"; "b.csv"]%string; names := ["A"%string];
          output := "out.kml"%string |}
       {| files := [("a.csv", "0,d,1,2,3")%string]; log := [] |}
  = (Raise (SystemExit mismatch_message),
     {| files := [("a.csv", "0,d,1,2,3")%string]; log := [] |}).
Proof.
  split; [simpl; lia |].
  apply (main_rejects_mismatch float_of_digits (fun _ _ => "0"%string) (fun p => p)
           {| inputs := ["a.csv"; "b.csv"]%string; names := ["A"%string];
              output := "out.kml"%string |}
           {| files := [("a.csv", "0,d,1,2,3")%string]; log := [] |}).
  simpl. lia.
Defined.

(** With matching counts the run reads its input and writes the document. *)
Example main_runs :
  log (snd (main float_of_digits (fun _ _ => "0"%string) (fun p => p)
              {| inputs := ["a.csv"%string]; names := ["A"%string];
                 output := "out.kml"%string |}
              {| files := [("a.csv", "0,d,1,2,3")%string]; log := [] |}))
  = [ FileRead "a.csv"; FileWrite "out.kml";
      Printed (check_mark ++ " KML escrito en: out.kml");
      Printed "Escala: 1:174000000  |  0 m por UA" ]%string.
Proof. vm_compute. reflexivity. Qed.

End DriverFacts.

(** ** Further properties of [generar_kml.py] *)

Module GenerarProps.
Import Py PyMath Generar GenerarAux GenerarFacts.

Lemma every_nth_nth {A : Type} (k : nat) (l : list A) :
  forall skip i,
    nth_error (every_nth (S k) skip l) i = nth_error l (skip + i * S k).
Proof.
  induction l as [| a t IH]; intros skip i.
  - simpl. destruct i; destruct (skip + _)%nat; reflexivity.
  - destruct skip as [| j].
    + cbn [every_nth]. destruct i as [| i].
      * reflexivity.
      * cbn [nth_error]. rewrite IH.
        replace (0 + S i * S k)%nat with (S (S k - 1 + i * S k)) by lia.
        reflexivity.
    + cbn [every_nth]. rewrite IH. reflexivity.
Qed.

(** X2. The slice [lines[::k]] takes the elements at positions 0, k, 2k,
    ...: element [i] of the result is element [i * k] of the list, and the
    result has [ceil (n / k)] elements; a step of zero raises. *)
Theorem slice_step_positions {A : Type} (k : nat) (l : list A) :
  slice_step l 0 = Raise ValueError /\
  exists strided,
    slice_step l (S k) = Ok strided /\
    (forall i, nth_error strided i = nth_error l (i * S k)) /\
    List.length strided = ((List.length l + k) / S k)%nat.
Proof.
  split; [reflexivity |].
  exists (every_nth (S k) 0 l). split; [reflexivity |].
  assert (Hnth : forall i, nth_error (every_nth (S k) 0 l) i = nth_error l (i * S k)).
  { intros i. rewrite every_nth_nth. reflexivity. }
  split; [exact Hnth |].
  set (s := every_nth (S k) 0 l) in *.
  assert (Hs : forall i, (List.length s <= i)%nat <-> (List.length l <= i * S k)%nat).
  { intros i. rewrite <- !nth_error_None, Hnth. reflexivity. }
  set (n := List.length l) in *.
  set (m := ((n + k) / S k)%nat).
  assert (Hdiv : (n + k = S k * m + (n + k) mod S k)%nat)
    by (apply Nat.div_mod_eq).
  assert (Hmod : ((n + k) mod S k < S k)%nat) by (apply Nat.mod_upper_bound; lia).
  assert (Hm : forall i, (m <= i)%nat <-> (n <= i * S k)%nat).
  { intros i. split; intros H; nia. }
  apply Nat.le_antisymm.
  - apply Hs. apply Hm. lia.
  - apply Hm. apply Hs. lia.
Qed.

Lemma keeps_true_far (d : R) (q p : point) :
  distance q p > d -> keeps d (Some q) p = true.
Proof. intros H. apply keeps_some. rewrite distance_sym. exact H. Qed.

Lemma prune_app (d : R) (l1 l2 : list point) :
  forall last,
    prune d last (l1 ++ l2) =
    prune d last l1 ++ prune d (last_point_after d last l1) l2.
Proof.
  induction l1 as [| p l1 IH]; intros last; simpl; [reflexivity |].
  destruct (keeps d last p); rewrite IH; reflexivity.
Qed.

Lemma last_point_after_last (d : R) (l : list point) :
  forall last,
    last_point_after d last l =
    match rev (prune d last l) with
    | p :: _ => Some p
    | [] => last
    end.
Proof.
  induction l as [| p l IH]; intros last; simpl; [reflexivity |].
  destruct (keeps d last p); [| apply IH].
  rewrite IH. simpl.
  destruct (rev (prune d (Some p) l)) as [| q out]; reflexivity.
Qed.

(** X3. The filter works on a stream: the output for a sequence followed
    by more samples is the output for the sequence followed by the output
    for the further samples, started from the last sample kept so far; that
    sample is the last element of the output so far. *)
Theorem prune_streams (d : R) (last : option point) (l1 l2 : list point) :
  prune d last (l1 ++ l2) =
    prune d last l1 ++ prune d (last_point_after d last l1) l2 /\
  last_point_after d last l1 =
    match rev (prune d last l1) with
    | p :: _ => Some p
    | [] => last
    end.
Proof.
  split; [apply prune_app | apply last_point_after_last].
Qed.

Lemma prune_fixed (d : R) (out : list point) :
  forall last,
    far_from d last out ->
    consecutive (fun p q => distance p q > d) out ->
    prune d last out = out.
Proof.
  induction out as [| p out IH]; intros last Hfar Hcons; simpl; [reflexivity |].
  assert (Hk : keeps d last p = true).
  { destruct last as [q |]; [| reflexivity]. apply keeps_true_far. exact Hfar. }
  rewrite Hk. f_equal. apply IH.
  - destruct out as [| q out]; simpl; [exact I | apply Hcons].
  - destruct out as [| q out]; simpl; [exact I | apply Hcons].
Qed.

(** X4. Decimating twice changes nothing: the filter keeps all of its own
    output. *)
Theorem prune_idempotent (d : R) (samples : list point) :
  prune d None (prune d None samples) = prune d None samples.
Proof.
  apply prune_fixed.
  - destruct (prune d None samples); exact I.
  - apply (prune_consecutive d samples None).
Qed.

Lemma split_on_cons (c : ascii) (s : string) :
  exists f fs, split_on c s = f :: fs.
Proof.
  induction s as [| a s IH]; simpl.
  - eexists _, _. reflexivity.
  - destruct (Ascii.eqb a c); [eexists _, _; reflexivity |].
    destruct IH as (f & fs & ->). eexists _, _. reflexivity.
Qed.

Lemma split_on_length (c : ascii) (s : string) :
  List.length (split_on c s) = S (occurrences c s).
Proof.
  induction s as [| a s IH]; simpl; [reflexivity |].
  destruct (Ascii.eqb a c); simpl; [now rewrite IH |].
  destruct (split_on_cons c s) as (f & fs & E). rewrite E in *. simpl in *. exact IH.
Qed.

Lemma split_on_free (c : ascii) (f : string) :
  occurrences c f = 0%nat -> split_on c f = [f].
Proof.
  induction f as [| a f IH]; simpl; intros H; [reflexivity |].
  destruct (Ascii.eqb a c); [discriminate |].
  rewrite IH by exact H. reflexivity.
Qed.

Lemma split_on_app (c : ascii) (f rest : string) :
  occurrences c f = 0%nat ->
  split_on c (f ++ String c rest) = f :: split_on c rest.
Proof.
  induction f as [| a f IH]; simpl; intros H.
  - rewrite Ascii.eqb_refl. reflexivity.
  - destruct (Ascii.eqb a c); [discriminate |].
    rewrite IH by exact H. reflexivity.
Qed.

(** Splitting what was joined gives the fields back, when no field holds
    the separator. *)
Lemma split_on_join (c : ascii) (fields : list string) :
  Forall (fun f => occurrences c f = 0%nat) fields ->
  fields <> [] ->
  split_on c (join (String c EmptyString) fields) = fields.
Proof.
  unfold join. induction fields as [| f fs IH]; intros Hfree Hne; [contradiction |].
  inversion Hfree as [| ? ? Hf Hfs]; subst.
  destruct fs as [| g fs].
  - simpl. apply split_on_free. exact Hf.
  - change (String.concat (String c EmptyString) (f :: g :: fs))
      with (f ++ String c (String.concat (String c EmptyString) (g :: fs)))%string.
    rewrite split_on_app by exact Hf. f_equal. apply IH; [exact Hfs | discriminate].
Qed.

Section Script.
Variable float_of_string : string -> option R.

(** X8. A line is read through its fields 2 and 3 alone: a line of at
    least four fields gives the sample of these two, one with fewer than
    three fields raises [IndexError], and one with exactly three fields
    raises too. *)
Theorem parse_line_fields :
  (forall line,
      (occurrences "," line < 2)%nat ->
      parse_line float_of_string line = Raise IndexError) /\
  (forall line,
      occurrences "," line = 2%nat ->
      parse_line float_of_string line = Raise ValueError \/
      parse_line float_of_string line = Raise IndexError) /\
  (forall f0 f1 f2 f3 more,
      Forall (fun f => occurrences "," f = 0%nat) (f0 :: f1 :: f2 :: f3 :: more) ->
      parse_line float_of_string (join "," (f0 :: f1 :: f2 :: f3 :: more)) =
      (x <- float float_of_string f2 ;; y <- float float_of_string f3 ;; Ok (x, y))).
Proof.
  split; [| split].
  - intros line H. unfold parse_line.
    pose proof (split_on_length "," line) as Hl.
    destruct (split_on "," line) as [| a [| b [| c parts]]]; simpl in Hl; try lia;
      reflexivity.
  - intros line H. unfold parse_line.
    pose proof (split_on_length "," line) as Hl.
    destruct (split_on "," line) as [| a [| b [| c [| d parts]]]]; simpl in Hl; try lia.
    simpl. unfold float. destruct (float_of_string c); simpl; [right | left]; reflexivity.
  - intros f0 f1 f2 f3 more Hfree. unfold parse_line.
    rewrite split_on_join by (exact Hfree || discriminate). reflexivity.
Qed.

End Script.

Lemma parse_line_fields_witness :
  parse_line Voyagers.float_of_digits "7,8" = Raise IndexError /\
  parse_line Voyagers.float_of_digits "a,b,3,4,e" =
    (x <- float Voyagers.float_of_digits "3" ;;
     y <- float Voyagers.float_of_digits "4" ;; Ok (x, y)).
Proof.
  destruct (parse_line_fields Voyagers.float_of_digits) as (Hshort & _ & Hfields).
  split.
  - apply Hshort. simpl. lia.
  - apply (Hfields "a" "b" "3" "4" ["e"])%string.
    repeat constructor.
Defined.

End GenerarProps.

(** ** Column inference *)

Module ColumnsProps.
Import Py PyMath Voyagers VoyagersAux.

Lemma dict_get_set (k k' v : string) (d : list (string * string)) :
  dict_get k (dict_set k' v d) = if String.eqb k' k then Some v else dict_get k d.
Proof.
  induction d as [| [k0 v0] d IH]; simpl.
  - reflexivity.
  - destruct (String.eqb k0 k') eqn:E0; simpl.
    + apply String.eqb_eq in E0. subst k0.
      destruct (String.eqb k' k); reflexivity.
    + rewrite IH. destruct (String.eqb k0 k) eqn:E1; [| reflexivity].
      apply String.eqb_eq in E1. subst k0. rewrite String.eqb_sym, E0. reflexivity.
Qed.

Lemma find_snoc {A : Type} (f : A -> bool) (l : list A) (a : A) :
  find f (l ++ [a]) =
  match find f l with
  | Some x => Some x
  | None => if f a then Some a else None
  end.
Proof.
  induction l as [| b l IH]; simpl; [reflexivity |].
  destruct (f b); [reflexivity | exact IH].
Qed.

Lemma lower_index_get (k : string) (columns : list string) :
  forall d0,
    dict_get k (fold_left (fun cols c => dict_set (lower c) c cols) columns d0) =
    match last_named k columns with
    | Some c => Some c
    | None => dict_get k d0
    end.
Proof.
  unfold last_named.
  induction columns as [| c cs IH]; intros d0; simpl; [reflexivity |].
  rewrite IH, find_snoc, dict_get_set.
  destruct (find (fun c0 => String.eqb (lower c0) k) (rev cs)); [reflexivity |].
  destruct (String.eqb (lower c) k); reflexivity.
Qed.

Lemma last_named_some (k c : string) (columns : list string) :
  last_named k columns = Some c ->
  lower c = k /\
  exists before after,
    columns = before ++ c :: after /\ Forall (fun c' => lower c' <> k) after.
Proof.
  unfold last_named. revert c.
  induction columns as [| c0 cs IH] using rev_ind; intros c H; [discriminate |].
  rewrite rev_app_distr in H. simpl in H.
  destruct (String.eqb (lower c0) k) eqn:E.
  - injection H as <-. apply String.eqb_eq in E. split; [exact E |].
    exists cs, []. split; [reflexivity | constructor].
  - destruct (IH c H) as (Hl & before & after & -> & Hafter).
    split; [exact Hl |].
    exists before, (after ++ [c0]). split; [now rewrite <- app_assoc |].
    apply Forall_app. split; [exact Hafter |].
    constructor; [| constructor]. apply String.eqb_neq. exact E.
Qed.

Lemma last_named_none (k : string) (columns : list string) :
  last_named k columns = None <-> Forall (fun c => lower c <> k) columns.
Proof.
  unfold last_named. split.
  - intros H. apply Forall_forall. intros c Hc Hl.
    apply in_rev in Hc.
    pose proof (find_none _ _ H c Hc) as Hf. simpl in Hf.
    apply String.eqb_neq in Hf. exact (Hf Hl).
  - intros H. rewrite Forall_forall in H.
    destruct (find (fun c => String.eqb (lower c) k) (rev columns)) as [c |] eqn:E;
      [| reflexivity].
    apply find_some in E. destruct E as [Hin Hl].
    apply in_rev in Hin. apply String.eqb_eq in Hl. exfalso. exact (H c Hin Hl).
Qed.

(** X10. [infer_xyz_columns] finds the three coordinate columns without
    regard to case: it returns, for each of [x], [y], [z], the last column
    whose lower-case name is that letter, a column of the frame, and raises
    [ValueError] exactly when a letter has no such column. *)
Theorem infer_xyz_columns_last (columns : list string) :
  infer_xyz_columns columns =
    match last_named "x" columns, last_named "y" columns, last_named "z" columns with
    | Some cx, Some cy, Some cz => Ok (cx, cy, cz)
    | _, _, _ => Raise ValueError
    end /\
  (forall k c,
      last_named k columns = Some c ->
      In c columns /\ lower c = k /\
      exists before after,
        columns = before ++ c :: after /\ Forall (fun c' => lower c' <> k) after) /\
  (forall k, last_named k columns = None <-> Forall (fun c => lower c <> k) columns).
Proof.
  split; [| split].
  - unfold infer_xyz_columns, lower_index.
    rewrite (lower_index_get "x" columns []), (lower_index_get "y" columns []),
      (lower_index_get "z" columns []). simpl.
    destruct (last_named "x" columns); [| reflexivity].
    destruct (last_named "y" columns); [| reflexivity].
    destruct (last_named "z" columns); reflexivity.
  - intros k c H. destruct (last_named_some k c columns H) as (Hl & before & after & E & Ha).
    split; [rewrite E; apply in_elt |]. split; [exact Hl |].
    exists before, after. split; assumption.
  - intros k. apply last_named_none.
Qed.

Lemma infer_xyz_columns_last_witness :
  infer_xyz_columns ["JDTDB"; "X"; "Y"; "Z"; "x"; "VX"]%string = Ok ("x", "Y", "Z")%string /\
  In "x"%string ["JDTDB"; "X"; "Y"; "Z"; "x"; "VX"]%string /\
  infer_xyz_columns ["JDTDB"; "X"; "Y"]%string = Raise ValueError.
Proof.
  destruct (infer_xyz_columns_last ["JDTDB"; "X"; "Y"; "Z"; "x"; "VX"]%string)
    as (Heq & Hsome & _).
  destruct (infer_xyz_columns_last ["JDTDB"; "X"; "Y"]%string) as (Hmiss & _ & _).
  split; [rewrite Heq; reflexivity |].
  split; [apply (Hsome "x"%string "x"%string); reflexivity |].
  rewrite Hmiss. reflexivity.
Defined.

End ColumnsProps.

(** ** Further properties of the spherical projection *)

Module SphericalProps.
Import Py PyMath PyMathFacts Voyagers VoyagersAux SphericalFacts.


End SphericalProps.

(** ** Further properties of the loader *)

Module LoaderProps.
Import Py PyMath Voyagers VoyagersAux LoaderFacts EmitterFacts.




Section Loader.
Variable float_of_string : string -> option R.





(** X19. Column 0 and the columns after the fifth play no part: two files
    whose frames agree on columns 1 to 4 load to the same result. *)
Theorem load_vectors_ignores_other_columns (lines1 lines2 : list string)
  (df1 df2 : DataFrame) :
  read_csv_lines lines1 = Ok df1 ->
  read_csv_lines lines2 = Ok df2 ->
  (5 <= width df1)%nat ->
  (5 <= width df2)%nat ->
  column df1 1 = column df2 1 ->
  column df1 2 = column df2 2 ->
  column df1 3 = column df2 3 ->
  column df1 4 = column df2 4 ->
  load_vectors_lines float_of_string lines1 = load_vectors_lines float_of_string lines2.
Proof.
  intros H1 H2 W1 W2 C1 C2 C3 C4.
  rewrite (load_vectors_lines_columns float_of_string lines1 df1 H1 W1).
  rewrite (load_vectors_lines_columns float_of_string lines2 df2 H2 W2).
  now rewrite C1, C2, C3, C4.
Qed.

End Loader.


Lemma load_vectors_ignores_other_columns_witness :
  load_vectors_lines float_of_digits ["0,d,1,2,3"]%string =
  load_vectors_lines float_of_digits ["9,d,1,2,3,7"]%string.
Proof.
  apply (load_vectors_ignores_other_columns float_of_digits
           ["0,d,1,2,3"]%string ["9,d,1,2,3,7"]%string
           {| width := 5; rows := [[Field "0"; Field "d"; Field "1"; Field "2"; Field "3"]]%string |}
           {| width := 6;
              rows := [[Field "9"; Field "d"; Field "1"; Field "2"; Field "3"; Field "7"]]%string |});
    try reflexivity; simpl; lia.
Defined.

End LoaderProps.

(** ** Further properties of the emitter *)

Module EmitterProps.
Import Py PyMath Voyagers VoyagersAux EmitterFacts.

Lemma append_empty_r (s : string) : (s ++ "")%string = s.
Proof. induction s as [| c s IH]; simpl; [reflexivity | now rewrite IH]. Qed.

Lemma append_assoc_str (a b c : string) : ((a ++ b) ++ c)%string = (a ++ (b ++ c))%string.
Proof. induction a as [| x a IH]; simpl; [reflexivity | now rewrite IH]. Qed.

Lemma join_empty_cons (x : string) (xs : list string) :
  join EmptyString (x :: xs) = (x ++ join EmptyString xs)%string.
Proof.
  unfold join. destruct xs as [| y ys]; simpl; [now rewrite append_empty_r | reflexivity].
Qed.

Lemma join_empty_app (l1 l2 : list string) :
  join EmptyString (l1 ++ l2) = (join EmptyString l1 ++ join EmptyString l2)%string.
Proof.
  induction l1 as [| x l1 IH]; [reflexivity |].
  rewrite <- app_comm_cons, !join_empty_cons, IH. now rewrite append_assoc_str.
Qed.

Lemma str_nat_inj (n m : nat) : str_nat n = str_nat m -> n = m.
Proof.
  unfold str_nat. intros H.
  apply (f_equal NilEmpty.uint_of_string) in H. rewrite !NilEmpty.usu in H.
  injection H as H. apply (f_equal Nat.of_uint) in H.
  now rewrite !Unsigned.of_to in H.
Qed.

Lemma style_id_inj : Injective style_id.
Proof.
  intros i j H. unfold style_id in H. simpl in H. injection H as H.
  apply str_nat_inj in H. lia.
Qed.

Section Emitter.
Variable format_f : nat -> R -> string.

(** X20. The document is always framed: it is the header, the style
    blocks, the track blocks and the footer, in this order, and with no
    series it is the header followed by the footer. *)
Theorem build_kml_framed (ss : list series) :
  build_kml format_f ss =
    (KML_HEADER
       ++ join EmptyString (map style_block (seq 0 (List.length ss)))
       ++ join EmptyString (map (track_block format_f) (enumerate ss))
       ++ KML_FOOTER)%string /\
  build_kml format_f [] = (KML_HEADER ++ KML_FOOTER)%string.
Proof.
  assert (H : forall l : list series,
             build_kml format_f l =
             (KML_HEADER
                ++ join EmptyString (map style_block (seq 0 (List.length l)))
                ++ join EmptyString (map (track_block format_f) (enumerate l))
                ++ KML_FOOTER)%string).
  { intros l. unfold build_kml. rewrite build_kml_parts_shape.
    rewrite !join_empty_app. unfold join at 1 4. simpl String.concat. reflexivity. }
  split; [apply H |]. rewrite H. reflexivity.
Qed.

End Emitter.

(** X21. The style ids [s1], [s2], ... of a document are pairwise
    distinct, so no two series share a style. *)
Theorem style_ids_distinct (n : nat) :
  NoDup (map style_id (seq 0 n)) /\
  map style_id (seq 0 3) = ["s1"; "s2"; "s3"]%string.
Proof.
  split; [| reflexivity].
  apply Injective_map_NoDup; [exact style_id_inj | apply seq_NoDup].
Qed.

End EmitterProps.

(** ** Further properties of the driver *)

Module DriverProps.
Import Py PyMath Voyagers VoyagersAux.

Section Driver.
Variable float_of_string : string -> option R.
Variable format_f : nat -> R -> string.
Variable resolve : string -> string.

Lemma app_log (l : list event) (a : event) (rest : list event) :
  (l ++ [a]) ++ rest = l ++ a :: rest.
Proof. now rewrite <- app_assoc. Qed.

(** The loop that fills [series] reads the inputs in order and stops at
    the first one that does not load; it changes no file. *)
Lemma load_all_world (pairs : list (string * string)) :
  forall acc w,
    load_all float_of_string pairs acc w =
    (match load_series float_of_string (files w) pairs with
     | Ok ss => Ok (acc ++ ss)
     | Raise e => Raise e
     end,
     {| files := files w;
        log := log w ++ map FileRead (attempted float_of_string (files w) pairs) |}).
Proof.
  induction pairs as [| [inp name] rest IH]; intros acc w.
  - simpl. unfold ret. rewrite !app_nil_r. destruct w. reflexivity.
  - cbn [load_all load_series attempted]. unfold bindIO, load_vectors_io, read_text, lift, load_file.
    unfold bindIO. destruct (lookup inp (files w)) as [text |] eqn:Hl.
    + destruct (load_vectors float_of_string text) as [[[[T X] Y] Z] | e]; simpl.
      * rewrite IH. simpl.
        destruct (load_series float_of_string (files w) rest) as [ss | e]; simpl;
          rewrite app_log; [now rewrite <- app_assoc | reflexivity].
      * reflexivity.
    + reflexivity.
Qed.

Lemma attempted_all (fs : list (string * string)) (pairs : list (string * string)) :
  forall ss, load_series float_of_string fs pairs = Ok ss ->
             attempted float_of_string fs pairs = map fst pairs /\
             map (fun s : series => fst (fst (fst (fst s)))) ss = map snd pairs.
Proof.
  induction pairs as [| [inp name] rest IH]; intros ss H; simpl in *.
  - injection H as <-. split; reflexivity.
  - destruct (load_file float_of_string fs inp) as [[[[T X] Y] Z] | e]; simpl in H; [| discriminate].
    destruct (load_series float_of_string fs rest) as [ss' | e]; simpl in H; [| discriminate].
    injection H as <-. destruct (IH ss' eq_refl) as [Ha Hn]. simpl.
    rewrite Ha, Hn. split; reflexivity.
Qed.

Lemma attempted_prefix (fs : list (string * string)) (pairs : list (string * string)) :
  exists n, attempted float_of_string fs pairs = firstn n (map fst pairs).
Proof.
  induction pairs as [| [inp name] rest [n IH]]; simpl.
  - exists 0%nat. reflexivity.
  - destruct (load_file float_of_string fs inp).
    + exists (S n). simpl. now rewrite IH.
    + exists 1%nat. reflexivity.
Qed.

(** What [main] does when the counts agree. *)
Lemma main_matched (args : Namespace) (w : world) :
  List.length (inputs args) = List.length (names args) ->
  main float_of_string format_f resolve args w =
  match load_series float_of_string (files w) (combine (inputs args) (names args)) with
  | Ok ss =>
      (Ok tt,
       {| files := (output args, build_kml format_f ss) :: files w;
          log := log w ++ map FileRead (inputs args)
                   ++ FileWrite (output args)
                   :: confirmation format_f resolve (output args) |})
  | Raise e =>
      (Raise e,
       {| files := files w;
          log := log w ++ map FileRead
                   (attempted float_of_string (files w)
                      (combine (inputs args) (names args))) |})
  end.
Proof.
  intros Hlen. unfold main. rewrite Hlen, Nat.eqb_refl.
  change (negb true) with false. cbv iota.
  unfold bindIO at 1. rewrite load_all_world.
  destruct (load_series float_of_string (files w) (combine (inputs args) (names args)))
    as [ss | e] eqn:Hs; [| reflexivity].
  destruct (attempted_all _ _ _ Hs) as [Ha _].
  rewrite Ha. 
  assert (Hfst : map fst (combine (inputs args) (names args)) = inputs args).
  { clear -Hlen. revert Hlen. generalize (names args).
    induction (inputs args) as [| i l IH]; intros [| n ns] H; simpl in *;
      try reflexivity; try discriminate.
    f_equal. apply IH. lia. }
  rewrite Hfst. cbn [app].
  unfold bindIO, write_text, print, record, confirmation. simpl.
  rewrite <- !app_assoc. reflexivity.
Qed.

Lemma firstn_map_fst_combine (n : nat) (a b : list string) :
  List.length a = List.length b ->
  firstn n (map fst (combine a b)) = firstn n a.
Proof.
  intros H. f_equal. revert b H.
  induction a as [| x a IH]; intros [| y b] H; simpl in *;
    try reflexivity; try discriminate.
  f_equal. apply IH. lia.
Qed.

(** X22. A run that fails writes nothing: whenever [main] raises, no file
    has changed, nothing was printed, and the only effects are the reads of
    the inputs up to the one on which it failed. *)
Theorem main_failure_writes_nothing (args : Namespace) (w w' : world) (e : exn) :
  main float_of_string format_f resolve args w = (Raise e, w') ->
  files w' = files w /\
  exists n, log w' = log w ++ map FileRead (firstn n (inputs args)).
Proof.
  intros H.
  destruct (Nat.eq_dec (List.length (inputs args)) (List.length (names args))) as [Hlen | Hlen].
  - rewrite (main_matched args w Hlen) in H.
    destruct (load_series float_of_string (files w) (combine (inputs args) (names args)));
      [discriminate |].
    injection H as _ <-. split; [reflexivity |].
    destruct (attempted_prefix (files w) (combine (inputs args) (names args))) as [n Hn].
    exists n. simpl. rewrite Hn, (firstn_map_fst_combine n _ _ Hlen). reflexivity.
  - unfold main in H. apply Nat.eqb_neq in Hlen. rewrite Hlen in H.
    injection H as _ <-. split; [reflexivity |].
    exists 0%nat. simpl. now rewrite app_nil_r.
Qed.

(** X23. A run that succeeds had as many names as inputs and every input
    loaded; it read the inputs in the order given, then wrote the document
    of the loaded series, named in the order given, to the output path
    once, then printed its two lines. *)
Theorem main_success_trace (args : Namespace) (w w' : world) :
  main float_of_string format_f resolve args w = (Ok tt, w') ->
  List.length (inputs args) = List.length (names args) /\
  exists ss,
    load_series float_of_string (files w) (combine (inputs args) (names args)) = Ok ss /\
    map (fun s : series => fst (fst (fst (fst s)))) ss = names args /\
    files w' = (output args, build_kml format_f ss) :: files w /\
    lookup (output args) (files w') = Some (build_kml format_f ss) /\
    log w' = log w ++ map FileRead (inputs args)
               ++ FileWrite (output args) :: confirmation format_f resolve (output args).
Proof.
  intros H.
  destruct (Nat.eq_dec (List.length (inputs args)) (List.length (names args))) as [Hlen | Hlen].
  - split; [exact Hlen |].
    rewrite (main_matched args w Hlen) in H.
    destruct (load_series float_of_string (files w) (combine (inputs args) (names args)))
      as [ss | e'] eqn:Hs; [| discriminate].
    injection H as <-. exists ss. split; [reflexivity |].
    destruct (attempted_all (files w) _ ss Hs) as [_ Hn].
    split.
    { rewrite Hn. clear -Hlen. revert Hlen. generalize (names args).
      induction (inputs args) as [| i l IH]; intros [| n ns] H; simpl in *;
        try reflexivity; try discriminate.
      f_equal. apply IH. lia. }
    split; [reflexivity |]. split; [| reflexivity].
    simpl. now rewrite String.eqb_refl.
  - unfold main in H. apply Nat.eqb_neq in Hlen. rewrite Hlen in H. discriminate.
Qed.

End Driver.

Lemma main_failure_writes_nothing_witness :
  files {| files := [("a.csv", "0,d,1,2,3")%string];
           log := [FileRead "a.csv"; FileRead "b.csv"]%string |}
    = [("a.csv", "0,d,1,2,3")%string] /\
  exists n,
    log {| files := [("a.csv", "0,d,1,2,3")%string];
           log := [FileRead "a.csv"; FileRead "b.csv"]%string |}
    = [] ++ map FileRead (firstn n ["a.csv"; "b.csv"; "c.csv"]%string).
Proof.
  apply (main_failure_writes_nothing float_of_digits (fun _ _ => "0"%string) (fun p => p)
           {| inputs := ["a.csv"; "b.csv"; "c.csv"]%string;
              names := ["A"; "B"; "C"]%string; output := "out.kml"%string |}
           {| files := [("a.csv", "0,d,1,2,3")%string]; log := [] |}
           {| files := [("a.csv", "0,d,1,2,3")%string];
              log := [FileRead "a.csv"; FileRead "b.csv"]%string |}
           (FileNotFoundError "b.csv")).
  vm_compute. reflexivity.
Defined.

Lemma main_success_trace_witness :
  List.length ["a.csv"]%string = List.length ["A"]%string /\
  exists ss,
    load_series float_of_digits [("a.csv", "0,d,1,2,3")%string]
      (combine ["a.csv"]%string ["A"]%string) = Ok ss /\
    map (fun s : series => fst (fst (fst (fst s)))) ss = ["A"]%string /\
    files (snd (main float_of_digits (fun _ _ => "0"%string) (fun p => p)
                  {| inputs := ["a.csv"]%string; names := ["A"]%string;
                     output := "out.kml"%string |}
                  {| files := [("a.csv", "0,d,1,2,3")%string]; log := [] |}))
      = ("out.kml"%string, build_kml (fun _ _ => "0"%string) ss)
          :: [("a.csv", "0,d,1,2,3")%string] /\
    lookup "out.kml"
      (files (snd (main float_of_digits (fun _ _ => "0"%string) (fun p => p)
                     {| inputs := ["a.csv"]%string; names := ["A"]%string;
                        output := "out.kml"%string |}
                     {| files := [("a.csv", "0,d,1,2,3")%string]; log := [] |})))
      = Some (build_kml (fun _ _ => "0"%string) ss) /\
    log (snd (main float_of_digits (fun _ _ => "0"%string) (fun p => p)
                {| inputs := ["a.csv"]%string; names := ["A"]%string;
                   output := "out.kml"%string |}
                {| files := [("a.csv", "0,d,1,2,3")%string]; log := [] |}))
      = [] ++ map FileRead ["a.csv"]%string
           ++ FileWrite "out.kml"
           :: confirmation (fun _ _ => "0"%string) (fun p => p) "out.kml".
Proof.
  apply (main_success_trace float_of_digits (fun _ _ => "0"%string) (fun p => p)
           {| inputs := ["a.csv"]%string; names := ["A"]%string; output := "out.kml"%string |}
           {| files := [("a.csv", "0,d,1,2,3")%string]; log := [] |}).
  vm_compute. reflexivity.
Defined.

End DriverProps.

(** ** Signs and special values of binary64 operations *)

Module Float64Facts.
Import Py Float64.

#[local] Set Warnings "-inexact-float".
Local Open Scope float_scope.

Lemma is_nan_spec (x : float) : is_nan x = negb (notnan (Prim2SF x)).
Proof.
  unfold is_nan. rewrite FloatAxioms.eqb_spec. unfold SFeqb.
  destruct (Prim2SF x) as [s | s | | s m e]; simpl; try reflexivity.
  - destruct s; reflexivity.
  - rewrite Z.compare_refl, Pos.compare_cont_refl. destruct s; reflexivity.
Qed.

(** *** Rounding keeps the sign *)

Lemma iter_pos_inv {A : Type} (P : A -> Prop) (f : A -> A) :
  (forall a, P a -> P (f a)) ->
  forall (n : positive) (a : A), P a -> P (SpecFloat.iter_pos f n a).
Proof.
  intros Hf. induction n as [n IH | n IH |]; intros a Ha; simpl; auto.
Qed.

Lemma shr_1_nonneg (mrs : shr_record) :
  (0 <= shr_m mrs)%Z -> (0 <= shr_m (shr_1 mrs))%Z.
Proof.
  destruct mrs as [m r s]. simpl. intros Hm.
  destruct m as [| p | p]; [simpl; lia | | lia].
  destruct p; simpl; lia.
Qed.

Lemma shr_nonneg (mrs : shr_record) (e n : Z) :
  (0 <= shr_m mrs)%Z -> (0 <= shr_m (fst (shr mrs e n)))%Z.
Proof.
  intros Hm. unfold shr. destruct n as [| p | p]; simpl; try exact Hm.
  apply (iter_pos_inv (fun a => (0 <= shr_m a)%Z)); [exact shr_1_nonneg | exact Hm].
Qed.

Lemma shr_fexp_nonneg (m e : Z) (l : location) :
  (0 <= m)%Z -> (0 <= shr_m (fst (shr_fexp prec emax m e l)))%Z.
Proof.
  intros Hm. unfold shr_fexp. apply shr_nonneg.
  destruct l as [| c]; [exact Hm |]. destruct c; exact Hm.
Qed.

Lemma round_nearest_even_nonneg (m : Z) (l : location) :
  (0 <= m)%Z -> (0 <= round_nearest_even m l)%Z.
Proof.
  intros Hm. unfold round_nearest_even.
  destruct l as [| c]; [exact Hm |].
  destruct c; [destruct (Z.even m) | |]; lia.
Qed.

(** The result of a rounding is a zero, a number or an infinity, of the
    sign it was given. *)
Lemma binary_round_aux_sign (s : bool) (m e : Z) (l : location) :
  (0 <= m)%Z ->
  let r := binary_round_aux prec emax s m e l in
  notnan r = true /\ (s = false -> notneg r = true).
Proof.
  intros Hm. unfold binary_round_aux.
  pose proof (shr_fexp_nonneg m e l Hm) as H1.
  destruct (shr_fexp prec emax m e l) as [mrs' e'] eqn:E1. simpl in H1.
  pose proof (shr_fexp_nonneg (round_nearest_even (shr_m mrs') (loc_of_shr_record mrs'))
                e' loc_Exact (round_nearest_even_nonneg _ _ H1)) as H2.
  destruct (shr_fexp prec emax _ e' loc_Exact) as [mrs'' e''] eqn:E2. simpl in H2.
  destruct (shr_m mrs'') as [| p | p]; [| | lia].
  - simpl. split; [reflexivity | intros _; reflexivity].
  - destruct (Z.leb e'' (emax - prec)); simpl; (split; [reflexivity | now intros ->]).
Qed.

Lemma binary_round_sign (s : bool) (m : positive) (e : Z) :
  let r := binary_round prec emax s m e in
  notnan r = true /\ (s = false -> notneg r = true).
Proof.
  unfold binary_round.
  destruct (shl_align m e (fexp prec emax (Zpos (digits2_pos m) + e))) as [mz ez].
  apply binary_round_aux_sign. lia.
Qed.

(** *** Squares, sums, square roots and positive multiples *)

Lemma SFmul_square (x : spec_float) :
  notneg (SFmul prec emax x x) = true /\
  (notnan x = true -> notnan (SFmul prec emax x x) = true).
Proof.
  destruct x as [s | s | | s m e]; simpl.
  - split; reflexivity.
  - rewrite xorb_nilpotent. split; reflexivity.
  - split; [reflexivity | discriminate].
  - rewrite xorb_nilpotent.
    destruct (binary_round_aux_sign false (Zpos (m * m)) (e + e) loc_Exact) as [Hn Hs]; [lia |].
    split; [now apply Hs | intros _; exact Hn].
Qed.

Lemma SFadd_notneg (x y : spec_float) :
  notneg x = true -> notneg y = true ->
  notneg (SFadd prec emax x y) = true /\
  (notnan x = true -> notnan y = true -> notnan (SFadd prec emax x y) = true).
Proof.
  intros Hx Hy.
  destruct x as [sx | sx | | sx mx ex]; destruct y as [sy | sy | | sy my ey];
    simpl in Hx, Hy |- *;
    try (apply negb_true_iff in Hx; subst sx);
    try (apply negb_true_iff in Hy; subst sy);
    try (split; [reflexivity | (discriminate || (intros; reflexivity))]).
  - destruct sx, sy; split; intros; reflexivity.
  - unfold binary_normalize.
    destruct (binary_round_sign false
                (fst (shl_align mx ex (Z.min ex ey)) + fst (shl_align my ey (Z.min ex ey)))
                (Z.min ex ey)) as [Hn Hs].
    split; [now apply Hs | intros _ _; exact Hn].
Qed.

Lemma Zsqrtrem_nonneg (n : Z) : (0 <= n)%Z -> (0 <= fst (Z.sqrtrem n))%Z.
Proof.
  intros Hn. pose proof (Z.sqrtrem_spec n Hn) as H.
  destruct (Z.sqrtrem n) as [q r]. simpl. lia.
Qed.

Lemma SFsqrt_notneg (x : spec_float) :
  notneg x = true ->
  notneg (SFsqrt prec emax x) = true /\
  (notnan x = true -> notnan (SFsqrt prec emax x) = true).
Proof.
  intros Hx. destruct x as [s | s | | s m e]; simpl in Hx |- *.
  - split; reflexivity.
  - apply negb_true_iff in Hx. subst s. split; reflexivity.
  - split; [reflexivity | discriminate].
  - apply negb_true_iff in Hx. subst s.
    unfold SFsqrt_core_binary.
    set (e' := Z.min _ _).
    set (m' := match (e - 2 * e')%Z with Zpos _ => _ | Z0 => _ | Zneg _ => _ end).
    assert (Hm' : (0 <= m')%Z).
    { subst m'. destruct (e - 2 * e')%Z; [lia | | lia]. apply Z.shiftl_nonneg. lia. }
    pose proof (Zsqrtrem_nonneg m' Hm') as Hq.
    destruct (Z.sqrtrem m') as [q r]. simpl in Hq.
    destruct (binary_round_aux_sign false q e'
                (if (r =? 0)%Z then loc_Exact
                 else loc_Inexact (if (r <=? q)%Z then Lt else Gt)) Hq) as [Hn Hs].
    split; [now apply Hs | intros _; exact Hn].
Qed.


(** *** Comparisons with zero *)


Lemma notneg_above_zero (x : float) :
  notneg (Prim2SF x) = true -> notnan (Prim2SF x) = true -> (0 <=? x) = true.
Proof.
  intros H Hn. rewrite FloatAxioms.leb_spec. unfold SFleb.
  change (Prim2SF 0) with (S754_zero false).
  destruct (Prim2SF x) as [s | s | | s m e]; simpl in H, Hn |- *; try reflexivity;
    try discriminate; apply negb_true_iff in H; subst s; reflexivity.
Qed.

(** [x == 0] holds of the two zeros only. *)
Lemma eqb_zero_cases (x : float) :
  (x =? 0) = true -> x = 0 \/ x = (-0).
Proof.
  rewrite FloatAxioms.eqb_spec. unfold SFeqb. change (Prim2SF 0) with (S754_zero false).
  intros H. rewrite <- (SF2Prim_Prim2SF x).
  destruct (Prim2SF x) as [s | s | | s m e]; simpl in H; try discriminate.
  - destruct s; [right | left]; reflexivity.
  - destruct s; discriminate.
  - destruct s; discriminate.
Qed.

(** [x == c] for a number [c] other than zero holds of [c] only. *)
Lemma eqb_finite_eq (x c : float) (s : bool) (m : positive) (e : Z) :
  Prim2SF c = S754_finite s m e -> (x =? c) = true -> x = c.
Proof.
  intros Hc. rewrite FloatAxioms.eqb_spec, Hc. unfold SFeqb. intros H.
  apply Prim2SF_inj. rewrite Hc.
  destruct (Prim2SF x) as [sx | sx | | sx mx ex]; simpl in H; try discriminate.
  - destruct s; discriminate.
  - destruct sx; discriminate.
  - destruct sx, s; try discriminate;
      destruct (Z.compare ex e) eqn:He; try discriminate;
      apply Z.compare_eq in He; subst ex;
      destruct (Pos.compare_cont Eq mx m) eqn:Hm; try discriminate;
      change (Pos.compare mx m = Eq) in Hm; apply Pos.compare_eq in Hm;
      subst mx; reflexivity.
Qed.



End Float64Facts.

(** ** A product that stays below a binary64 number *)

Module Float64Bounds.
Import Py Float64 Float64Facts.

#[local] Set Warnings "-inexact-float".
Local Open Scope Z_scope.

Lemma digits2_pos_bounds (p : positive) :
  2 ^ (Zpos (digits2_pos p) - 1) <= Zpos p < 2 ^ Zpos (digits2_pos p).
Proof.
  induction p as [p IH | p IH |]; cbn [digits2_pos].
  - rewrite Pos2Z.inj_succ.
    replace (Z.succ (Zpos (digits2_pos p)) - 1) with (Z.succ (Zpos (digits2_pos p) - 1)) by lia.
    rewrite !Z.pow_succ_r by lia. lia.
  - rewrite Pos2Z.inj_succ.
    replace (Z.succ (Zpos (digits2_pos p)) - 1) with (Z.succ (Zpos (digits2_pos p) - 1)) by lia.
    rewrite !Z.pow_succ_r by lia. lia.
  - simpl. lia.
Qed.

Lemma iter_pos_steps {A : Type} (I : Z -> A -> Prop) (f : A -> A) :
  (forall k a, 0 <= k -> I k a -> I (k + 1) (f a)) ->
  forall (n : positive) (k : Z) (a : A),
    0 <= k -> I k a -> I (k + Zpos n) (SpecFloat.iter_pos f n a).
Proof.
  intros Hf. induction n as [n IH | n IH |]; intros k a Hk Ha; cbn [SpecFloat.iter_pos].
  - replace (k + Zpos n~1) with ((k + 1 + Zpos n) + Zpos n) by lia.
    apply IH; [lia |]. apply IH; [lia |]. now apply Hf.
  - replace (k + Zpos n~0) with ((k + Zpos n) + Zpos n) by lia.
    apply IH; [lia |]. now apply IH.
  - now apply Hf.
Qed.

Lemma shr_1_shifted (P k : Z) (mrs : shr_record) :
  0 <= k -> shifted P k mrs -> shifted P (k + 1) (shr_1 mrs).
Proof.
  intros Hk (Hm & rest & HP & Hr & Hs).
  destruct mrs as [m r s]. cbn [shr_m shr_r shr_s] in *.
  assert (H2 : 2 ^ (k + 1) = 2 * 2 ^ k) by (rewrite Z.pow_add_r by lia; lia).
  assert (Hp : 0 < 2 ^ k) by (apply Z.pow_pos_nonneg; lia).
  destruct m as [| p | p]; [| | lia].
  - unfold shifted. cbn [shr_1 shr_m shr_r shr_s]. split; [lia |].
    exists rest. rewrite H2. split; [lia |]. split; [lia |]. exact Hs.
  - destruct p as [p | p |]; unfold shifted; cbn [shr_1 shr_m shr_r shr_s];
      (split; [lia |]).
    + exists (2 ^ k + rest). rewrite H2. split; [lia |]. split; [lia |]. intros _. lia.
    + exists rest. rewrite H2. split; [lia |]. split; [lia |]. exact Hs.
    + exists (2 ^ k + rest). rewrite H2. split; [lia |]. split; [lia |]. intros _. lia.
Qed.

Lemma shifted_start (m : Z) :
  0 <= m -> shifted m 0 (shr_record_of_loc m loc_Exact).
Proof.
  intros Hm. split; [exact Hm |]. exists 0. cbn. split; [lia |]. split; [lia | discriminate].
Qed.

(** One call of [shr_fexp] on an exact integer: some bits go, the exponent
    grows by as many, up to the exponent the format gives to the number. *)
Lemma shr_fexp_shifted (m e : Z) :
  0 <= m ->
  exists k,
    0 <= k /\
    snd (shr_fexp prec emax m e loc_Exact) = e + k /\
    e + k = Z.max e (fexp prec emax (Zdigits2 m + e)) /\
    shifted m k (fst (shr_fexp prec emax m e loc_Exact)).
Proof.
  intros Hm. unfold shr_fexp, shr.
  destruct (fexp prec emax (Zdigits2 m + e) - e) as [| p | p] eqn:E.
  - exists 0. cbn [fst snd]. split; [lia |]. split; [lia |]. split; [lia |].
    now apply shifted_start.
  - exists (Zpos p). cbn [fst snd]. split; [lia |]. split; [lia |]. split; [lia |].
    apply (iter_pos_steps (shifted m) shr_1 (shr_1_shifted m) p 0); [lia |].
    now apply shifted_start.
  - exists 0. cbn [fst snd]. split; [lia |]. split; [lia |]. split; [lia |].
    now apply shifted_start.
Qed.

Lemma fexp_le (d e eF : Z) :
  -1074 <= eF -> d + e - 53 <= eF -> fexp prec emax (d + e) <= eF.
Proof. unfold fexp, SpecFloat.emin, prec, emax. lia. Qed.

Lemma digits_le (m e mF eF : Z) :
  0 <= m -> e <= eF -> 0 < mF < 2 ^ 53 -> m <= mF * 2 ^ (eF - e) ->
  Zdigits2 m + e - 53 <= eF.
Proof.
  intros Hm He HF Hle. destruct m as [| p | p]; [simpl; lia | | lia].
  cbn [Zdigits2]. pose proof (digits2_pos_bounds p) as [Hd _].
  assert (H : 2 ^ (Zpos (digits2_pos p) - 1) < 2 ^ (53 + (eF - e))).
  { rewrite Z.pow_add_r by lia.
    assert (0 < 2 ^ (eF - e)) by (apply Z.pow_pos_nonneg; lia). nia. }
  apply Z.pow_lt_mono_r_iff in H; lia.
Qed.

(** Rounding an integer that is exactly at most a binary64 number gives at
    most that number. *)
Lemma binary_round_aux_bounded (s : bool) (P : positive) (e mF eF : Z) :
  e <= eF -> -1074 <= eF <= 971 -> 0 < mF < 2 ^ 53 ->
  Zpos P <= mF * 2 ^ (eF - e) ->
  match binary_round_aux prec emax s (Zpos P) e loc_Exact with
  | S754_zero s' => s' = s
  | S754_finite s' m2 e2 => s' = s /\ e2 <= eF /\ Zpos m2 <= mF * 2 ^ (eF - e2)
  | _ => False
  end.
Proof.
  intros He HeF HmF HP. unfold binary_round_aux.
  destruct (shr_fexp_shifted (Zpos P) e) as (k & Hk & E1 & M1 & S1); [lia |].
  destruct (shr_fexp prec emax (Zpos P) e loc_Exact) as [mrs' e'].
  cbn [fst snd] in E1, S1. subst e'.
  assert (He' : e + k <= eF).
  { rewrite M1. apply Z.max_lub; [exact He |].
    apply fexp_le; [lia |]. apply (digits_le _ _ mF); lia. }
  destruct S1 as (Hm' & rest & HPr & Hrest & Hinex).
  assert (Hpow : 2 ^ (eF - e) = 2 ^ (eF - (e + k)) * 2 ^ k)
    by (rewrite <- Z.pow_add_r by lia; f_equal; lia).
  assert (Hk2 : 0 < 2 ^ k) by (apply Z.pow_pos_nonneg; lia).
  set (K := mF * 2 ^ (eF - (e + k))).
  assert (HK : Zpos P <= K * 2 ^ k) by (unfold K; rewrite <- Z.mul_assoc, <- Hpow; exact HP).
  set (m1 := round_nearest_even (shr_m mrs') (loc_of_shr_record mrs')).
  assert (Hm1 : 0 <= m1 <= K).
  { subst m1. destruct mrs' as [m' r' s']. cbn [shr_m shr_r shr_s] in *.
    destruct r', s'; cbn [loc_of_shr_record round_nearest_even orb] in *;
      try (assert (0 < rest) by (now apply Hinex));
      try destruct (Z.even m'); nia. }
  destruct (shr_fexp_shifted m1 (e + k)) as (k2 & Hk2' & E2 & M2 & S2); [lia |].
  destruct (shr_fexp prec emax m1 (e + k) loc_Exact) as [mrs'' e''].
  cbn [fst snd] in E2, S2. subst e''.
  assert (He'' : e + k + k2 <= eF).
  { rewrite M2. apply Z.max_lub; [exact He' |].
    apply fexp_le; [lia |]. apply (digits_le _ _ mF); try lia; exact (proj2 Hm1). }
  destruct S2 as (Hm2 & rest2 & Hm1r & Hrest2 & _).
  assert (Hpow2 : 2 ^ (eF - (e + k)) = 2 ^ (eF - (e + k + k2)) * 2 ^ k2)
    by (rewrite <- Z.pow_add_r by lia; f_equal; lia).
  assert (Hk3 : 0 < 2 ^ k2) by (apply Z.pow_pos_nonneg; lia).
  assert (Hfin : shr_m mrs'' <= mF * 2 ^ (eF - (e + k + k2))).
  { unfold K in Hm1. rewrite Hpow2 in Hm1.
    assert (0 <= 2 ^ (eF - (e + k + k2))) by (apply Z.pow_nonneg; lia). nia. }
  destruct (shr_m mrs'') as [| m2 | m2]; [reflexivity | | lia].
  replace (e + k + k2 <=? emax - prec) with true
    by (symmetry; apply Z.leb_le; unfold emax, prec; lia).
  split; [reflexivity |]. split; [exact He'' | exact Hfin].
Qed.

Lemma finite_leb (m2 : positive) (e2 : Z) (mF : positive) (eF : Z) :
  e2 <= eF -> Zpos m2 <= Zpos mF * 2 ^ (eF - e2) ->
  SFleb (S754_finite false m2 e2) (S754_finite false mF eF) = true.
Proof.
  intros He Hm. unfold SFleb, SFcompare.
  destruct (Z.compare_spec e2 eF) as [E | E | E]; [| reflexivity | lia].
  subst e2. rewrite Z.sub_diag, Z.mul_1_r in Hm.
  change (Pos.compare_cont Eq m2 mF) with (Pos.compare m2 mF).
  destruct (Pos.compare_spec m2 mF); [reflexivity | reflexivity | lia].
Qed.

(** What [a <= B] says of the mantissa and exponent of [a], for a [B] with
    a full mantissa. *)
Lemma finite_leb_inv (ma : positive) (ea : Z) (mB : positive) (eB : Z) :
  valid_binary (S754_finite false ma ea) = true ->
  2 ^ 52 <= Zpos mB ->
  SFleb (S754_finite false ma ea) (S754_finite false mB eB) = true ->
  ea <= eB /\ Zpos ma <= Zpos mB * 2 ^ (eB - ea).
Proof.
  intros Hv HB. unfold SFleb, SFcompare.
  destruct (Z.compare_spec ea eB) as [E | E | E]; [| | discriminate].
  - subst ea. change (Pos.compare_cont Eq ma mB) with (Pos.compare ma mB).
    rewrite Z.sub_diag, Z.mul_1_r.
    destruct (Pos.compare_spec ma mB); try discriminate; intros _; lia.
  - intros _. split; [lia |].
    cbn [valid_binary] in Hv. unfold bounded, canonical_mantissa in Hv.
    apply andb_true_iff in Hv. destruct Hv as [Hc _]. apply Z.eqb_eq in Hc.
    unfold fexp, SpecFloat.emin, prec, emax in Hc.
    pose proof (digits2_pos_bounds ma) as [_ Hd].
    assert (Hd53 : Zpos (digits2_pos ma) <= 53) by lia.
    assert (H53 : 2 ^ Zpos (digits2_pos ma) <= 2 ^ 53)
      by (apply Z.pow_le_mono_r; lia).
    assert (H1 : 2 ^ 1 <= 2 ^ (eB - ea)) by (apply Z.pow_le_mono_r; lia).
    change (2 ^ 53) with (2 ^ 52 * 2 ^ 1) in H53. nia.
Qed.

Local Open Scope float_scope.

(** If [|a| <= B] and the exact product of [B] and [c] is at most the
    binary64 number [F], then [|a * c| <= F]: rounding does not step over a
    binary64 number. *)
Lemma mul_abs_bounded (a c B F : float)
  (mc : positive) (ec : Z) (mB : positive) (eB : Z) (mF : positive) (eF : Z) :
  Prim2SF c = S754_finite false mc ec ->
  Prim2SF B = S754_finite false mB eB ->
  Prim2SF F = S754_finite false mF eF ->
  product_below mB eB mc ec mF eF = true ->
  (abs a <=? B) = true -> (abs (a * c) <=? F) = true.
Proof.
  intros Hc HB HF Hok.
  unfold product_below in Hok. rewrite !andb_true_iff in Hok.
  destruct Hok as (((((H52 & H53) & Hex) & Hlo) & Hhi) & Hprod).
  apply Z.leb_le in H52, Hex, Hlo, Hhi, Hprod. apply Z.ltb_lt in H53.
  rewrite !FloatAxioms.leb_spec, !FloatAxioms.abs_spec, FloatAxioms.mul_spec, Hc, HB, HF.
  pose proof (Prim2SF_valid a) as Hv.
  destruct (Prim2SF a) as [sa | sa | | sa ma ea]; cbn [SFabs]; try discriminate.
  - intros _. reflexivity.
  - intros H. apply finite_leb_inv in H; [| exact Hv | exact H52].
    destruct H as [Hea Hma]. unfold SF64mul. cbn [SFmul].
    assert (HP : (Zpos (ma * mc) <= Zpos mF * 2 ^ (eF - (ea + ec)))%Z).
    { replace (eF - (ea + ec))%Z with ((eF - eB - ec) + (eB - ea))%Z by lia.
      rewrite Z.pow_add_r by lia. rewrite Pos2Z.inj_mul.
      assert (0 <= 2 ^ (eB - ea))%Z by (apply Z.pow_nonneg; lia).
      assert (0 <= 2 ^ (eF - eB - ec))%Z by (apply Z.pow_nonneg; lia).
      nia. }
    pose proof (binary_round_aux_bounded (xorb sa false) (ma * mc) (ea + ec)
                  (Zpos mF) eF) as Hr.
    destruct (binary_round_aux prec emax (xorb sa false) (Zpos (ma * mc)) (ea + ec) loc_Exact)
      as [s' | s' | | s' m2 e2]; cbn [SFabs].
    + reflexivity.
    + exfalso. apply Hr; lia.
    + exfalso. apply Hr; lia.
    + destruct Hr as (_ & He2 & Hm2); try lia. now apply finite_leb.
Qed.

(** *** Signs, NaN and the wrappers of [math] *)

Lemma abs_is_nan (x : float) : is_nan (abs x) = is_nan x.
Proof.
  rewrite !is_nan_spec, FloatAxioms.abs_spec. now destruct (Prim2SF x).
Qed.

Lemma abs_above_zero (x : float) : is_nan x = false -> (0 <=? abs x) = true.
Proof.
  rewrite is_nan_spec, FloatAxioms.leb_spec, FloatAxioms.abs_spec.
  change (Prim2SF 0) with (S754_zero false).
  destruct (Prim2SF x); simpl; intros H; try reflexivity; discriminate.
Qed.

(** A value whose magnitude is at most a number is a number. *)
Lemma bounded_is_number (r B : float) (mB : positive) (eB : Z) :
  Prim2SF B = S754_finite false mB eB -> (abs r <=? B) = true ->
  is_nan r = false /\ is_infinity r = false.
Proof.
  intros HB. unfold is_infinity.
  rewrite is_nan_spec, FloatAxioms.leb_spec, FloatAxioms.eqb_spec, FloatAxioms.abs_spec, HB.
  change (Prim2SF infinity) with (S754_infinity false).
  destruct (Prim2SF r) as [s | s | | s m e]; cbn; intros H; try discriminate;
    split; reflexivity.
Qed.

(** A value above zero is a number with the sign bit clear. *)
Lemma above_zero_sign (v : float) :
  (0 <? v) = true ->
  is_nan v = false /\ (v =? 0) = false /\ get_sign v = false.
Proof.
  intros H.
  assert (K : is_nan v = false /\ (v =? 0) = false /\ (v <? 0) = false).
  { revert H. rewrite is_nan_spec, !FloatAxioms.ltb_spec, !FloatAxioms.eqb_spec.
    change (Prim2SF 0) with (S754_zero false).
    destruct (Prim2SF v) as [s | s | | s m e]; cbn; try discriminate;
      destruct s; try discriminate; intros _; repeat split; reflexivity. }
  destruct K as (K1 & K2 & K3). split; [exact K1 |]. split; [exact K2 |].
  unfold get_sign, is_zero. change PrimFloat.zero with 0%float.
  rewrite K2. exact K3.
Qed.

Lemma nonneg_nonzero_above (v : float) :
  (0 <=? v) = true -> ne v 0 = true -> (0 <? v) = true.
Proof.
  unfold ne. rewrite FloatAxioms.leb_spec, FloatAxioms.ltb_spec, FloatAxioms.eqb_spec.
  change (Prim2SF 0) with (S754_zero false).
  destruct (Prim2SF v) as [s | s | | s m e]; cbn; try discriminate;
    destruct s; try discriminate; intros _ _; reflexivity.
Qed.

(** [degrees] takes [-pi, pi] into [-180, 180] and [-pi/2, pi/2] into
    [-90, 90]. *)
Lemma math_degrees_range (a : float) :
  ((abs a <=? pi) = true -> (abs (math_degrees a) <=? 180) = true) /\
  ((abs a <=? 0.5 * pi) = true -> (abs (math_degrees a) <=? 90) = true).
Proof.
  split; intros H; unfold math_degrees.
  - apply (mul_abs_bounded a radToDeg pi 180
             8063664102031864 (-47) 7074237752028440 (-51) 6333186975989760 (-45));
      try reflexivity. exact H.
  - apply (mul_abs_bounded a radToDeg (0.5 * pi) 90
             8063664102031864 (-47) 7074237752028440 (-52) 6333186975989760 (-46));
      try reflexivity. exact H.
Qed.

(** A magnitude bound, read as an interval *)
Lemma abs_bound_interval (v F : float) (mF : positive) (eF : Z) :
  Prim2SF F = S754_finite false mF eF ->
  (abs v <=? F) = true -> (- F <=? v) = true /\ (v <=? F) = true.
Proof.
  intros HF. rewrite !FloatAxioms.leb_spec, FloatAxioms.abs_spec, FloatAxioms.opp_spec, HF.
  destruct (Prim2SF v) as [s | s | | s m e]; cbn [SFabs SFopp negb]; try discriminate.
  - intros _. split; reflexivity.
  - destruct s.
    + unfold SFleb, SFcompare.
      rewrite (Z.compare_antisym e eF).
      change (Pos.compare_cont Eq mF m) with (Pos.compare mF m).
      change (Pos.compare_cont Eq m mF) with (Pos.compare m mF).
      rewrite (Pos.compare_antisym m mF).
      destruct (Z.compare e eF); cbn; try discriminate; try (intros _; split; reflexivity).
      destruct (Pos.compare m mF); cbn; try discriminate; intros _; split; reflexivity.
    + intros H. split; [reflexivity | exact H].
Qed.

Section Wrappers.
Variable c_atan2 : float -> float -> float.
Variable norm : float -> float -> float.

Lemma copysign_abs (K y : float) :
  copysign K y = abs K \/ copysign K y = - abs K.
Proof. unfold copysign. destruct (get_sign y); [right | left]; reflexivity. Qed.

(** The check of [math_2] lets a bounded result through. *)
Lemma math_atan2_bounded (y x B : float) (mB : positive) (eB : Z) :
  Prim2SF B = S754_finite false mB eB ->
  (abs (m_atan2 c_atan2 y x) <=? B) = true ->
  math_atan2 c_atan2 y x = Ok (m_atan2 c_atan2 y x).
Proof.
  intros HB H. unfold math_atan2.
  destruct (bounded_is_number _ B mB eB HB H) as [-> ->]. reflexivity.
Qed.

Hypothesis c_atan2_range :
  forall y x, is_nan y = false -> is_nan x = false ->
              (abs (c_atan2 y x) <=? pi) = true.
Hypothesis c_atan2_right :
  forall y x, is_nan y = false -> (0 <? x) = true ->
              (abs (c_atan2 y x) <=? 0.5 * pi) = true.
Hypothesis norm_nonneg :
  forall u v, is_nan u = false -> is_nan v = false -> (0 <=? norm u v) = true.

Lemma m_atan2_range (y x : float) :
  is_nan y = false -> is_nan x = false ->
  (abs (m_atan2 c_atan2 y x) <=? pi) = true.
Proof.
  intros Ny Nx. unfold m_atan2. rewrite Nx, Ny. cbn [orb].
  destruct (is_infinity y).
  - destruct (is_infinity x); [destruct (copysign 1 x =? 1) |];
      match goal with
      | |- context [copysign ?K y] => destruct (copysign_abs K y) as [-> | ->]
      end; reflexivity.
  - destruct (is_infinity x || (y =? 0)); [| now apply c_atan2_range].
    destruct (copysign 1 x =? 1);
      match goal with
      | |- context [copysign ?K y] => destruct (copysign_abs K y) as [-> | ->]
      end; reflexivity.
Qed.

Lemma m_atan2_right (y x : float) :
  is_nan y = false -> (0 <? x) = true ->
  (abs (m_atan2 c_atan2 y x) <=? 0.5 * pi) = true.
Proof.
  intros Ny Px. destruct (above_zero_sign x Px) as (Nx & _ & Sx).
  unfold m_atan2. rewrite Nx, Ny. cbn [orb].
  assert (H1 : (copysign 1 x =? 1) = true) by (unfold copysign; rewrite Sx; reflexivity).
  rewrite H1.
  destruct (is_infinity y).
  - destruct (is_infinity x);
      match goal with
      | |- context [copysign ?K y] => destruct (copysign_abs K y) as [-> | ->]
      end; reflexivity.
  - destruct (is_infinity x || (y =? 0)); [| now apply c_atan2_right].
    destruct (copysign_abs 0 y) as [-> | ->]; reflexivity.
Qed.

Lemma math_hypot_nonneg (x y : float) :
  is_nan x = false -> is_nan y = false -> (0 <=? math_hypot norm x y) = true.
Proof.
  intros Nx Ny. unfold math_hypot.
  pose proof (abs_above_zero x Nx) as Hx. pose proof (abs_above_zero y Ny) as Hy.
  assert (Hmax : (0 <=? (if gt (abs y) (if gt (abs x) 0 then abs x else 0)
                         then abs y else if gt (abs x) 0 then abs x else 0)) = true).
  { destruct (gt (abs y) _); [exact Hy |]. destruct (gt (abs x) 0); [exact Hx | reflexivity]. }
  destruct (is_infinity _); [exact Hmax |].
  rewrite !abs_is_nan, Nx, Ny. cbn [orb].
  destruct (_ =? 0); [exact Hmax |].
  apply norm_nonneg; now rewrite abs_is_nan.
Qed.

End Wrappers.

End Float64Bounds.

(** ** The decimation loop of [generar_kml.py] in binary64 *)

Module Generar64Facts.
Import Py Float64 Float64Facts Generar64.

#[local] Set Warnings "-inexact-float".
Local Open Scope float_scope.

Section Script.
Variable c_pow : float -> float -> float.
Variable float_of_string : string -> option float.


Lemma parse_lines_Forall2 (lines : list string) (samples : list point) :
  parse_lines float_of_string lines = Ok samples <->
  Forall2 (fun line p => parse_line float_of_string line = Ok p) lines samples.
Proof.
  revert samples. induction lines as [| line rest IH]; intros samples; simpl.
  - split.
    + intros H. injection H as <-. constructor.
    + intros H. inversion H. reflexivity.
  - split.
    + destruct (parse_line float_of_string line) as [p | e] eqn:Hp; cbn [bind]; [| discriminate].
      destruct (parse_lines float_of_string rest) as [ps | e] eqn:Hps; cbn [bind]; [| discriminate].
      intros H. injection H as <-. constructor; [exact Hp | now apply IH].
    + intros H. inversion H as [| l p ls ps Hp Hps]; subst.
      rewrite Hp. cbn [bind]. apply IH in Hps. rewrite Hps. reflexivity.
Qed.

(** The loop on lines is the loop on their samples, when it ends. *)
Lemma filter_loop_ends (lines : list string) :
  forall (acc : list point) (last : option point) (out : list point),
    filter_loop c_pow float_of_string lines acc last = Ok out <->
    exists samples kept,
      parse_lines float_of_string lines = Ok samples /\
      prune c_pow last samples = Ok kept /\
      out = acc ++ kept.
Proof.
  induction lines as [| line rest IH]; intros acc last out; simpl.
  - split.
    + intros H. injection H as <-. exists [], []. now rewrite app_nil_r.
    + intros (samples & kept & Hs & Hk & ->). injection Hs as <-.
      simpl in Hk. injection Hk as <-. now rewrite app_nil_r.
  - destruct (parse_line float_of_string line) as [p | e]; cbn [bind].
    2:{ split; [discriminate | intros (samples & kept & Hs & _); discriminate]. }
    split.
    + destruct (keeps c_pow last p) as [k | e] eqn:Hk; cbn [bind]; [| discriminate].
      destruct k; intros H; apply IH in H; destruct H as (samples & kept & Hs & Hp & ->).
      * exists (p :: samples), (p :: kept). rewrite Hs. cbn [bind]. simpl.
        rewrite Hk. cbn [bind]. rewrite Hp. cbn [bind].
        split; [reflexivity |]. split; [reflexivity |]. now rewrite <- app_assoc.
      * exists (p :: samples), kept. rewrite Hs. cbn [bind]. simpl.
        rewrite Hk. cbn [bind]. split; [reflexivity |]. split; [exact Hp | reflexivity].
    + intros (samples & kept & Hs & Hp & ->).
      destruct (parse_lines float_of_string rest) as [ps | e] eqn:Hps; cbn [bind] in Hs; [| discriminate].
      injection Hs as <-. simpl in Hp.
      destruct (keeps c_pow last p) as [k | e] eqn:Hk; cbn [bind] in Hp |- *; [| discriminate].
      destruct k.
      * destruct (prune c_pow (Some p) ps) as [tl | e] eqn:Htl; cbn [bind] in Hp; [| discriminate].
        injection Hp as <-. apply IH. exists ps, tl.
        split; [reflexivity |]. split; [exact Htl |]. now rewrite <- app_assoc.
      * apply IH. exists ps, kept. split; [reflexivity |]. split; [exact Hp | reflexivity].
Qed.

Lemma filtered_points_ends (text : string) (out : list point) :
  filtered_points c_pow float_of_string text = Ok out <->
  exists samples,
    parse_lines float_of_string (every_nth line_skip 0 (readlines text)) = Ok samples /\
    prune c_pow None samples = Ok out.
Proof.
  unfold filtered_points. simpl. rewrite filter_loop_ends. split.
  - intros (samples & kept & Hs & Hk & ->). now exists samples.
  - intros (samples & Hs & Hk). now exists samples, out.
Qed.

Lemma prune_in_order (samples : list point) :
  forall last out, prune c_pow last samples = Ok out -> subseq out samples.
Proof.
  induction samples as [| p rest IH]; intros last out; simpl.
  - intros H. injection H as <-. constructor.
  - destruct (keeps c_pow last p) as [k | e]; cbn [bind]; [| discriminate].
    destruct k.
    + destruct (prune c_pow (Some p) rest) as [tl | e] eqn:Htl; cbn [bind]; [| discriminate].
      intros H. injection H as <-. constructor. now apply (IH (Some p)).
    + intros H. constructor. now apply (IH last).
Qed.

Lemma keeps_apart (q p : point) : keeps c_pow (Some q) p = Ok true -> apart c_pow q p.
Proof.
  simpl. destruct (distance c_pow p q) as [d | e] eqn:Hd; cbn [bind]; [| discriminate].
  intros H. injection H as H. exists d. split; [exact Hd | exact H].
Qed.

Lemma prune_apart (samples : list point) :
  forall last out,
    prune c_pow last samples = Ok out -> consecutive (apart c_pow) out /\ passed c_pow last out.
Proof.
  induction samples as [| p rest IH]; intros last out; simpl.
  - intros H. injection H as <-. split; [exact I | now destruct last].
  - destruct (keeps c_pow last p) as [k | e] eqn:Hk; cbn [bind]; [| discriminate].
    destruct k.
    + destruct (prune c_pow (Some p) rest) as [tl | e] eqn:Htl; cbn [bind]; [| discriminate].
      intros H. injection H as <-.
      destruct (IH (Some p) tl Htl) as [Hc Hp]. split.
      * simpl. destruct tl as [| q tl]; [exact I |]. split; [exact Hp | exact Hc].
      * destruct last as [q |]; [| exact I]. simpl. now apply keeps_apart.
    + intros H. now apply (IH last).
Qed.

Lemma prune_first (p : point) (rest out : list point) :
  prune c_pow None (p :: rest) = Ok out -> exists tl, out = p :: tl.
Proof.
  simpl. destruct (prune c_pow (Some p) rest) as [tl | e]; cbn [bind]; [| discriminate].
  intros H. injection H as <-. now exists tl.
Qed.

(** A distance c_pow equal to the threshold does not exceed it. *)
Lemma tie_not_above (d : float) : (d =? min_distance) = true -> gt d min_distance = false.
Proof.
  intros H. apply (eqb_finite_eq d min_distance false 7036874417766400 (-46)) in H;
    [| reflexivity].
  subst d. reflexivity.
Qed.

(** C3 (amended). Minimum-distance pruning is strict on the distance the
    script computes: in the output of a run that ends, the binary64 value
    of [distance(q, p)] for every kept sample [q] and its predecessor [p]
    is strictly greater than [min_distance]; a candidate whose computed
    distance to the last kept point equals [min_distance] is dropped. *)
Theorem filter_min_distance_strict :
  (forall text out,
      filtered_points c_pow float_of_string text = Ok out ->
      consecutive (apart c_pow) out) /\
  (forall q p d,
      distance c_pow p q = Ok d -> (d =? min_distance) = true ->
      keeps c_pow (Some q) p = Ok false) /\
  (forall line rest acc q p d,
      parse_line float_of_string line = Ok p ->
      distance c_pow p q = Ok d -> (d =? min_distance) = true ->
      filter_loop c_pow float_of_string (line :: rest) acc (Some q)
      = filter_loop c_pow float_of_string rest acc (Some q)).
Proof.
  split; [| split].
  - intros text out H. apply filtered_points_ends in H.
    destruct H as (samples & _ & H). now apply prune_apart in H.
  - intros q p d Hd He. simpl. rewrite Hd. cbn [bind].
    now rewrite (tie_not_above d He).
  - intros line rest acc q p d Hp Hd He. simpl. rewrite Hp. cbn [bind].
    rewrite Hd. cbn [bind]. now rewrite (tie_not_above d He).
Qed.

(** C4 (amended). When the run ends, the output of the filter is a
    subsequence of the samples of every second line, in their order, and it
    begins with the first of them, so it is empty only if there is none. *)
Theorem filter_output_subsequence (text : string) (out : list point) :
  filtered_points c_pow float_of_string text = Ok out ->
  exists samples,
    Forall2 (fun line p => parse_line float_of_string line = Ok p)
            (every_nth line_skip 0 (readlines text)) samples /\
    subseq out samples /\
    match samples with
    | [] => out = []
    | first :: _ => exists rest, out = first :: rest
    end.
Proof.
  intros H. apply filtered_points_ends in H. destruct H as (samples & Hs & Hp).
  exists samples. split; [now apply parse_lines_Forall2 |].
  split; [now apply prune_in_order in Hp |].
  destruct samples as [| first rest].
  - simpl in Hp. now injection Hp as <-.
  - now apply prune_first in Hp.
Qed.

(** X7. The loop of the script, which reads and tests line by line, ends
    exactly when every second line has a sample and the filter of these
    samples ends, with the same points; an empty file gives no point; and
    the lines are those of universal newlines. *)
Theorem filtered_points_fused (text : string) :
  (forall out,
      filtered_points c_pow float_of_string text = Ok out <->
      exists samples,
        Forall2 (fun line p => parse_line float_of_string line = Ok p)
                (every_nth line_skip 0 (readlines text)) samples /\
        prune c_pow None samples = Ok out) /\
  filtered_points c_pow float_of_string EmptyString = Ok [] /\
  readlines ("a" ++ String "013" (String "010" "b") ++ String "013" "c" ++ nl ++ "d")
  = [("a" ++ nl)%string; ("b" ++ nl)%string; ("c" ++ nl)%string; "d"%string].
Proof.
  split; [| split; reflexivity].
  intros out. rewrite filtered_points_ends. split.
  - intros (samples & Hs & Hp). exists samples.
    split; [now apply parse_lines_Forall2 | exact Hp].
  - intros (samples & Hs & Hp). exists samples.
    split; [now apply parse_lines_Forall2 | exact Hp].
Qed.

End Script.

(** C3, counterexample. Two samples that the script keeps one after the
    other: the distance it computes is 100.00000000000001, the distance of
    the two points themselves is below 100. *)
Lemma kept_pair_below_min_distance :
  filtered_points square_pow float_of_decimal
    (unlines [ "a,b,42.4917933630790,0.0" ; "skipped"
             ; "a,b,-53.5082066369208,28.0000000000007" ]%string)
  = Ok [ (42.4917933630790, 0) ; (-53.5082066369208, 28.0000000000007) ] /\
  distance square_pow (-53.5082066369208, 28.0000000000007) (42.4917933630790, 0)
  = Ok 100.00000000000001 /\
  option_map (fun v => frac_ltb v (100 * 100, 0)%Z)
    (exact_sqdist (42.4917933630790, 0) (-53.5082066369208, 28.0000000000007))
  = Some true.
Proof. split; [| split]; vm_compute; reflexivity. Qed.

(** C4, counterexample. Every second line has a sample, yet the run ends in
    [OverflowError] when the second one is tested, so there is no output. *)
Lemma overflow_leaves_no_output :
  parse_lines float_of_decimal
    (every_nth line_skip 0
       (readlines (unlines [ "a,b,0,0" ; "skipped" ; "a,b,1e200,0" ]%string)))
  = Ok [ (0, 0) ; (1e200, 0) ] /\
  filtered_points square_pow float_of_decimal
    (unlines [ "a,b,0,0" ; "skipped" ; "a,b,1e200,0" ]%string)
  = Raise OverflowError.
Proof. split; vm_compute; reflexivity. Qed.

Lemma filter_min_distance_strict_witness :
  consecutive (apart square_pow)
    [ (0, 0) ; (0, 100.5) ; (200, 100.5) ].
Proof.
  apply (proj1 (filter_min_distance_strict square_pow float_of_decimal)
           (unlines [ "a,b,0,0" ; "skipped" ; "a,b,0,100.5" ; "skipped"
                    ; "a,b,0,100" ; "skipped" ; "a,b,200,100.5" ]%string)).
  vm_compute. reflexivity.
Defined.

Lemma filter_output_subsequence_witness :
  exists samples,
    Forall2 (fun line p => parse_line float_of_decimal line = Ok p)
      (every_nth line_skip 0
         (readlines (unlines [ "a,b,0,0" ; "skipped" ; "a,b,0,50" ; "skipped"
                             ; "a,b,0,100.5" ]%string))) samples /\
    subseq [ (0, 0) ; (0, 100.5) ] samples /\
    match samples with
    | [] => [ (0, 0) ; (0, 100.5) ] = []
    | first :: _ => exists rest, [ (0, 0) ; (0, 100.5) ] = first :: rest
    end.
Proof.
  apply (filter_output_subsequence square_pow float_of_decimal).
  vm_compute. reflexivity.
Defined.

End Generar64Facts.

(** ** The spherical projection in binary64 *)

Module Spherical64Facts.
Import Py Float64 Float64Facts Float64Bounds Voyagers64.

#[local] Set Warnings "-inexact-float".
Local Open Scope float_scope.

Lemma sum_squares_notneg (x y z : float) :
  notneg (Prim2SF (x * x + y * y + z * z)) = true /\
  (is_nan x = false -> is_nan y = false -> is_nan z = false ->
   notnan (Prim2SF (x * x + y * y + z * z)) = true).
Proof.
  rewrite !is_nan_spec, !negb_false_iff.
  rewrite !FloatAxioms.add_spec, !FloatAxioms.mul_spec.
  destruct (SFmul_square (Prim2SF x)) as [Hx Hx'].
  destruct (SFmul_square (Prim2SF y)) as [Hy Hy'].
  destruct (SFmul_square (Prim2SF z)) as [Hz Hz'].
  destruct (SFadd_notneg _ _ Hx Hy) as [Hxy Hxy'].
  destruct (SFadd_notneg _ _ Hxy Hz) as [Hs Hs'].
  split; [exact Hs |]. intros Nx Ny Nz. auto.
Qed.

(** [math.sqrt] never raises on a sum of squares. *)
Lemma math_sqrt_sum_squares (x y z : float) :
  math_sqrt (x * x + y * y + z * z) = Ok (PrimFloat.sqrt (x * x + y * y + z * z)).
Proof.
  unfold math_sqrt. set (s := x * x + y * y + z * z).
  destruct (sum_squares_notneg x y z) as [Hs _]. fold s in Hs.
  destruct (SFsqrt_notneg _ Hs) as [_ Hn].
  rewrite !is_nan_spec, FloatAxioms.sqrt_spec.
  destruct (notnan (Prim2SF s)) eqn:E.
  - unfold SF64sqrt. rewrite (Hn eq_refl). reflexivity.
  - simpl. now rewrite andb_false_r.
Qed.



Section Libm.
Variable c_atan2 : float -> float -> float.
Variable norm : float -> float -> float.

(** What a returned triple is made of. *)
Lemma xyz_to_lonlatalt_Ok (x y z lon lat alt : float) :
  xyz_to_lonlatalt c_atan2 norm x y z = Ok (lon, lat, alt) ->
  alt = PrimFloat.sqrt (x * x + y * y + z * z) * SCALE_M_PER_AU /\
  (exists a, math_atan2 c_atan2 y x = Ok a /\ lon = math_degrees a) /\
  (if ne (math_hypot norm x y) 0
   then exists b, math_atan2 c_atan2 z (math_hypot norm x y) = Ok b /\ lat = math_degrees b
   else lat = if gt z 0 then 90 else -90).
Proof.
  unfold xyz_to_lonlatalt. rewrite math_sqrt_sum_squares. cbn [bind].
  destruct (math_atan2 c_atan2 y x) as [a | e] eqn:Ea; cbn [bind]; [| discriminate].
  destruct (ne (math_hypot norm x y) 0).
  - destruct (math_atan2 c_atan2 z (math_hypot norm x y)) as [b | e] eqn:Eb;
      cbn [bind]; [| discriminate].
    intros H. injection H as <- <- <-.
    split; [reflexivity |]. split; [now exists a | now exists b].
  - cbn [bind]. intros H. injection H as <- <- <-.
    split; [reflexivity |]. split; [now exists a | reflexivity].
Qed.

(** [atan2] on the axis of x, where CPython answers without the C library *)
Lemma math_atan2_zero_y (y x : float) :
  (y =? 0) = true -> is_nan x = false ->
  math_atan2 c_atan2 y x = Ok (if copysign 1 x =? 1 then copysign 0 y else copysign pi y).
Proof.
  intros Hy Hx. destruct (eqb_zero_cases y Hy) as [-> | ->].
  - unfold math_atan2, m_atan2. rewrite Hx.
    change (is_nan 0) with false. change (is_infinity 0) with false.
    change (0 =? 0) with true. rewrite orb_true_r. cbn [orb negb andb].
    destruct (copysign 1 x =? 1); vm_compute; reflexivity.
  - unfold math_atan2, m_atan2. rewrite Hx.
    change (is_nan (-0)) with false. change (is_infinity (-0)) with false.
    change (-0 =? 0) with true. rewrite orb_true_r. cbn [orb negb andb].
    destruct (copysign 1 x =? 1); vm_compute; reflexivity.
Qed.


Lemma math_atan2_zero_y_returns (y x : float) :
  (y =? 0) = true -> exists a, math_atan2 c_atan2 y x = Ok a.
Proof.
  intros Hy. destruct (is_nan x) eqn:Hx.
  - exists nan. unfold math_atan2, m_atan2. rewrite Hx. reflexivity.
  - eexists. apply math_atan2_zero_y; assumption.
Qed.

Lemma math_hypot_zero (x y : float) :
  (x =? 0) = true -> (y =? 0) = true -> math_hypot norm x y = 0.
Proof.
  intros Hx Hy.
  destruct (eqb_zero_cases x Hx) as [-> | ->];
    destruct (eqb_zero_cases y Hy) as [-> | ->]; reflexivity.
Qed.

(** Off the axis of x the latitude comes from [atan2] with a first argument
    that is zero, which needs no C library either. *)
Lemma xyz_to_lonlatalt_plane_returns (x y : float) :
  (y =? 0) = true -> is_nan x = false ->
  exists lat,
    xyz_to_lonlatalt c_atan2 norm x y 0 =
    Ok (math_degrees (if copysign 1 x =? 1 then copysign 0 y else copysign pi y),
        lat,
        PrimFloat.sqrt (x * x + y * y + 0 * 0) * SCALE_M_PER_AU).
Proof.
  intros Hy Hx. unfold xyz_to_lonlatalt.
  rewrite math_sqrt_sum_squares, (math_atan2_zero_y y x Hy Hx). cbn [bind].
  destruct (ne (math_hypot norm x y) 0).
  - destruct (math_atan2_zero_y_returns 0 (math_hypot norm x y) eq_refl) as [b ->].
    cbn [bind]. eexists. reflexivity.
  - cbn [bind]. eexists. reflexivity.
Qed.

End Libm.


(** C2, counterexample. With x = -0.0 the test [r_xy != 0] fails as it does
    for x = 0.0, so the pole rule gives the latitude, but the longitude is
    180.0. *)
Lemma pole_longitude_at_negative_zero :
  (forall c_atan2 norm,
      math_hypot norm (-0) 0 = 0 /\
      xyz_to_lonlatalt c_atan2 norm (-0) 0 5 = Ok (180, 90, 5 * SCALE_M_PER_AU)) /\
  (-0 =? 0) = true /\ (180 =? 0) = false.
Proof.
  split; [intros c_atan2 norm; split; reflexivity |]. split; reflexivity.
Qed.

(** C7, counterexample. On the negative axis of x with y = -0.0 the
    longitude is -180.0, which is not above -180. *)
Lemma longitude_reaches_minus_180 :
  (forall c_atan2 norm, exists lat alt,
      xyz_to_lonlatalt c_atan2 norm (-1) (-0) 0 = Ok (-180, lat, alt)) /\
  gt (-180) (-180) = false.
Proof.
  split; [| reflexivity].
  intros c_atan2 norm.
  destruct (xyz_to_lonlatalt_plane_returns c_atan2 norm (-1) (-0) eq_refl eq_refl)
    as [lat H].
  exists lat. eexists. rewrite H. reflexivity.
Qed.


Section Claims.
Variable c_atan2 : float -> float -> float.
Variable norm : float -> float -> float.

(** C2 (amended). Pole rule in binary64.  Whenever the horizontal norm the
    code computes is zero, the latitude is +90 for z > 0 and -90 otherwise
    (also for z = 0 and for a NaN z).  That is the case when x and y are
    zeros of either sign: there the function returns, the longitude is 0
    when x is +0.0 and 180 in magnitude when x is -0.0.  In particular
    (0, 0, 5) gives longitude 0 and latitude 90, (0, 0, -5) gives latitude
    -90 and (0, 0, 0) gives longitude 0 and latitude -90. *)
Theorem pole_singularity (x y z : float) :
  (forall lon lat alt,
      xyz_to_lonlatalt c_atan2 norm x y z = Ok (lon, lat, alt) ->
      ne (math_hypot norm x y) 0 = false ->
      lat = if gt z 0 then 90 else -90) /\
  ((x =? 0) = true -> (y =? 0) = true ->
   exists lon alt,
     xyz_to_lonlatalt c_atan2 norm x y z
       = Ok (lon, (if gt z 0 then 90 else -90), alt) /\
     (get_sign x = false -> (lon =? 0) = true) /\
     (get_sign x = true -> abs lon = 180)) /\
  xyz_to_lonlatalt c_atan2 norm 0 0 5 = Ok (0, 90, 5 * SCALE_M_PER_AU) /\
  xyz_to_lonlatalt c_atan2 norm 0 0 (-5) = Ok (0, -90, 5 * SCALE_M_PER_AU) /\
  xyz_to_lonlatalt c_atan2 norm 0 0 0 = Ok (0, -90, 0).
Proof.
  split; [| split; [| repeat split; reflexivity]].
  - intros lon lat alt H Hp.
    apply xyz_to_lonlatalt_Ok in H. destruct H as (_ & _ & H).
    rewrite Hp in H. exact H.
  - intros Hx Hy. unfold xyz_to_lonlatalt.
    rewrite math_sqrt_sum_squares, (math_hypot_zero norm x y Hx Hy).
    assert (Nx : is_nan x = false)
      by (destruct (eqb_zero_cases x Hx) as [-> | ->]; reflexivity).
    rewrite (math_atan2_zero_y c_atan2 y x Hy Nx). cbn [bind].
    change (ne 0 0) with false. cbv iota. cbn [bind].
    eexists. eexists. split; [reflexivity |].
    destruct (eqb_zero_cases x Hx) as [-> | ->];
      destruct (eqb_zero_cases y Hy) as [-> | ->];
      split; intros Hs; try discriminate Hs; reflexivity.
Qed.


End Claims.

(** The stand-ins for the C library have the ranges asked for below. *)
Lemma coarse_atan2_range (y x : float) :
  (abs (coarse_atan2 y x) <=? pi) = true.
Proof.
  unfold coarse_atan2.
  destruct (x <? 0);
    match goal with
    | |- context [copysign ?K y] => destruct (copysign_abs K y) as [-> | ->]
    end; reflexivity.
Qed.

Lemma coarse_atan2_right (y x : float) :
  (0 <? x) = true -> (abs (coarse_atan2 y x) <=? 0.5 * pi) = true.
Proof.
  intros Px. unfold coarse_atan2.
  assert (H : (x <? 0) = false).
  { revert Px. rewrite !FloatAxioms.ltb_spec. change (Prim2SF 0) with (S754_zero false).
    destruct (Prim2SF x) as [s | s | | s m e]; cbn; try discriminate;
      destruct s; try discriminate; reflexivity. }
  rewrite H. destruct (copysign_abs (0.25 * pi) y) as [-> | ->]; reflexivity.
Qed.

Lemma plain_norm_nonneg (u v : float) :
  is_nan u = false -> is_nan v = false -> (0 <=? plain_norm u v) = true.
Proof.
  rewrite !is_nan_spec, !negb_false_iff. intros Nu Nv. unfold plain_norm.
  destruct (SFmul_square (Prim2SF u)) as [Hu Hu'].
  destruct (SFmul_square (Prim2SF v)) as [Hv Hv'].
  destruct (SFadd_notneg _ _ Hu Hv) as [Hs Hs'].
  destruct (SFsqrt_notneg _ Hs) as [Hr Hr'].
  apply notneg_above_zero;
    rewrite FloatAxioms.sqrt_spec, FloatAxioms.add_spec, !FloatAxioms.mul_spec; auto.
Qed.

Section Range.
Variable c_atan2 : float -> float -> float.
Variable norm : float -> float -> float.

Hypothesis c_atan2_range :
  forall y x, is_nan y = false -> is_nan x = false ->
              (abs (c_atan2 y x) <=? pi) = true.
Hypothesis c_atan2_right :
  forall y x, is_nan y = false -> (0 <? x) = true ->
              (abs (c_atan2 y x) <=? 0.5 * pi) = true.
Hypothesis norm_nonneg :
  forall u v, is_nan u = false -> is_nan v = false -> (0 <=? norm u v) = true.

(** C7 (amended). Range in binary64, for a C library whose [atan2]
    returns angles of magnitude at most [pi], at most [pi / 2] when its
    second argument is positive, and a norm that is not negative: for every
    input without NaN the function returns, the longitude lies in
    [-180, 180] and the latitude in [-90, 90], both ends included. *)
Theorem lonlat_range (x y z : float) :
  is_nan x = false -> is_nan y = false -> is_nan z = false ->
  exists lon lat alt,
    xyz_to_lonlatalt c_atan2 norm x y z = Ok (lon, lat, alt) /\
    (-180 <=? lon) = true /\ (lon <=? 180) = true /\
    (-90 <=? lat) = true /\ (lat <=? 90) = true.
Proof.
  intros Nx Ny Nz. unfold xyz_to_lonlatalt.
  rewrite math_sqrt_sum_squares. cbn [bind].
  pose proof (m_atan2_range c_atan2 c_atan2_range y x Ny Nx) as Ha.
  rewrite (math_atan2_bounded c_atan2 y x pi 7074237752028440 (-51) eq_refl Ha).
  cbn [bind].
  apply (proj1 (math_degrees_range _)) in Ha.
  apply (abs_bound_interval _ 180 6333186975989760 (-45) eq_refl) in Ha.
  destruct Ha as [Ha1 Ha2].
  destruct (ne (math_hypot norm x y) 0) eqn:Hp.
  - pose proof (math_hypot_nonneg norm norm_nonneg x y Nx Ny) as Hr.
    pose proof (nonneg_nonzero_above _ Hr Hp) as Hpos.
    pose proof (m_atan2_right c_atan2 c_atan2_right z _ Nz Hpos) as Hb.
    rewrite (math_atan2_bounded c_atan2 z _ (0.5 * pi) 7074237752028440 (-52) eq_refl Hb).
    cbn [bind].
    apply (proj2 (math_degrees_range _)) in Hb.
    apply (abs_bound_interval _ 90 6333186975989760 (-46) eq_refl) in Hb.
    destruct Hb as [Hb1 Hb2].
    do 3 eexists. split; [reflexivity |]. auto.
  - cbn [bind]. do 3 eexists. split; [reflexivity |].
    split; [exact Ha1 |]. split; [exact Ha2 |].
    destruct (gt z 0); split; reflexivity.
Qed.

End Range.

Lemma lonlat_range_witness :
  exists lon lat alt,
    xyz_to_lonlatalt coarse_atan2 plain_norm (-3) (-4) 12 = Ok (lon, lat, alt) /\
    (-180 <=? lon) = true /\ (lon <=? 180) = true /\
    (-90 <=? lat) = true /\ (lat <=? 90) = true.
Proof.
  apply (lonlat_range coarse_atan2 plain_norm
           (fun y x _ _ => coarse_atan2_range y x)
           (fun y x _ H => coarse_atan2_right y x H)
           plain_norm_nonneg (-3) (-4) 12); reflexivity.
Defined.

Lemma pole_singularity_witness :
  exists lon alt,
    xyz_to_lonlatalt coarse_atan2 plain_norm (-0) 0 7 = Ok (lon, 90, alt) /\
    (get_sign (-0) = false -> (lon =? 0) = true) /\
    (get_sign (-0) = true -> abs lon = 180).
Proof.
  apply (proj1 (proj2 (pole_singularity coarse_atan2 plain_norm (-0) 0 7)));
    reflexivity.
Defined.


End Spherical64Facts.

(** ** Blocks and records in the text of the document *)

Module MarkupFacts.
Import Py PyMath Voyagers Markup EmitterFacts EmitterProps.

Local Open Scope string_scope.

Ltac list_eq :=
  repeat match goal with
         | |- _ :: _ = _ :: _ => f_equal; try lia
         end;
  try reflexivity.

Lemma settled_app (pat u r : string) :
  settled pat u = true ->
  starts_with pat (u ++ r) = starts_with pat u /\ settled pat (u ++ r) = true.
Proof.
  revert u. induction pat as [| a pat IH]; intros u H; [now split |].
  destruct u as [| b u]; [discriminate |]. simpl in H |- *.
  destruct (Ascii.eqb a b); [| now split].
  destruct (IH u H) as [-> ->]. now split.
Qed.

Lemma closed_for_app (pat a b : string) :
  closed_for pat a = true -> closed_for pat b = true ->
  closed_for pat (a ++ b) = true.
Proof.
  intros Ha Hb. induction a as [| c a IH]; [exact Hb |].
  cbn [closed_for] in Ha. apply andb_true_iff in Ha. destruct Ha as [Hs Ha].
  change ((String c a) ++ b) with (String c (a ++ b)). cbn [closed_for].
  change (String c (a ++ b)) with ((String c a) ++ b).
  rewrite (proj2 (settled_app pat (String c a) b Hs)). now rewrite IH.
Qed.

Lemma count_text_app (pat a b : string) :
  closed_for pat a = true ->
  count_text pat (a ++ b) = (count_text pat a + count_text pat b)%nat.
Proof.
  intros Ha. induction a as [| c a IH]; [reflexivity |].
  cbn [closed_for] in Ha. apply andb_true_iff in Ha. destruct Ha as [Hs Ha].
  change ((String c a) ++ b) with (String c (a ++ b)). cbn [count_text].
  change (String c (a ++ b)) with ((String c a) ++ b).
  rewrite (proj1 (settled_app pat (String c a) b Hs)), (IH Ha). lia.
Qed.

(** Text without [<] holds no tag and lets none begin. *)
Lemma plain_closed (pat s : string) :
  no_lt s = true ->
  closed_for (String "<" pat) s = true /\ count_text (String "<" pat) s = 0%nat.
Proof.
  induction s as [| b s IH]; [now split |].
  cbn [no_lt]. intros H. apply andb_true_iff in H. destruct H as [Hb Hs].
  destruct (IH Hs) as [IH1 IH2]. cbn [closed_for count_text settled starts_with].
  rewrite Ascii.eqb_sym. apply negb_true_iff in Hb. rewrite Hb, IH1, IH2. now split.
Qed.

Lemma closed_all_spec (s : string) :
  closed_all s = true <->
  closed_for style_tag s = true /\ closed_for placemark_tag s = true /\
  closed_for track_tag s = true /\ closed_for when_tag s = true /\
  closed_for coord_tag s = true.
Proof.
  unfold closed_all, tags. cbn [forallb]. rewrite !andb_true_iff. tauto.
Qed.

Lemma counts_app (a b : string) :
  closed_all a = true -> counts (a ++ b) = add_counts (counts a) (counts b).
Proof.
  intros H. apply closed_all_spec in H. destruct H as (H1 & H2 & H3 & H4 & H5).
  unfold counts, tags, add_counts. cbn [map combine].
  now rewrite !count_text_app by assumption.
Qed.

Lemma closed_all_app (a b : string) :
  closed_all a = true -> closed_all b = true -> closed_all (a ++ b) = true.
Proof.
  rewrite !closed_all_spec. intros (H1 & H2 & H3 & H4 & H5) (K1 & K2 & K3 & K4 & K5).
  repeat split; now apply closed_for_app.
Qed.

Lemma plain_counts (s : string) :
  no_lt s = true -> closed_all s = true /\ counts s = [0; 0; 0; 0; 0]%nat.
Proof.
  intros H. split.
  - apply closed_all_spec. repeat split; now apply plain_closed.
  - unfold counts, tags. cbn [map].
    unfold style_tag, placemark_tag, track_tag, when_tag, coord_tag.
    now rewrite !(fun pat => proj2 (plain_closed pat s H)).
Qed.

Lemma plain_counts_eq (s : string) :
  no_lt s = true -> counts s = [0; 0; 0; 0; 0]%nat.
Proof. intros H. now apply plain_counts. Qed.

Lemma add_counts_zero_l (c : list nat) :
  List.length c = 5%nat -> add_counts [0; 0; 0; 0; 0]%nat c = c.
Proof.
  intros H. do 5 (destruct c as [| ? c]; [discriminate |]).
  destruct c; [reflexivity | discriminate].
Qed.

Lemma add_counts_length (a b : list nat) :
  List.length a = 5%nat -> List.length b = 5%nat -> List.length (add_counts a b) = 5%nat.
Proof.
  intros Ha Hb. unfold add_counts. rewrite length_map, length_combine, Ha, Hb. reflexivity.
Qed.

(** [sep.join(l)] of pieces that let no tag straddle *)
Lemma counts_concat (sep : string) (l : list string) :
  closed_all sep = true -> counts sep = [0; 0; 0; 0; 0]%nat ->
  Forall (fun s => closed_all s = true) l ->
  closed_all (String.concat sep l) = true /\
  counts (String.concat sep l) = sum_counts (map counts l).
Proof.
  intros Hs Hc Hl. induction Hl as [| x l Hx Hl [IH1 IH2]]; [split; reflexivity |].
  destruct l as [| y l].
  - cbn [String.concat map sum_counts fold_right]. split; [exact Hx |].
    unfold add_counts. cbn. unfold counts, tags. cbn [map].
    list_eq.
  - change (String.concat sep (x :: y :: l)) with (x ++ sep ++ String.concat sep (y :: l)).
    split.
    + apply closed_all_app; [exact Hx |]. now apply closed_all_app.
    + rewrite (counts_app x _ Hx), (counts_app sep _ Hs), Hc, IH2.
      rewrite add_counts_zero_l; [reflexivity |].
      clear. induction (y :: l) as [| z t IH]; [reflexivity |].
      cbn [map sum_counts fold_right]. apply add_counts_length; [reflexivity | exact IH].
Qed.

Lemma no_lt_app (a b : string) :
  no_lt a = true -> no_lt b = true -> no_lt (a ++ b) = true.
Proof.
  intros Ha Hb. induction a as [| c a IH]; [exact Hb |].
  cbn [no_lt] in Ha |- *. apply andb_true_iff in Ha. destruct Ha as [Hc Ha].
  change ((String c a) ++ b) with (String c (a ++ b)). cbn [no_lt].
  now rewrite Hc, IH.
Qed.

Lemma no_lt_uint (u : Decimal.uint) : no_lt (NilEmpty.string_of_uint u) = true.
Proof. induction u; simpl; auto. Qed.

Lemma no_lt_style_id (idx : nat) : no_lt (style_id idx) = true.
Proof. unfold style_id, str_nat. apply no_lt_app; [reflexivity | apply no_lt_uint]. Qed.

Lemma zip4_Forall {A B C D : Type} (P : A -> Prop) (a : list A) :
  Forall P a ->
  forall (b : list B) (c : list C) (d : list D),
    Forall (fun s : A * B * C * D => P (fst (fst (fst s)))) (zip4 a b c d).
Proof.
  induction 1 as [| x a Hx Ha IH]; intros b c d; [constructor |].
  destruct b as [| y b]; [constructor |].
  destruct c as [| z c]; [constructor |].
  destruct d as [| w d]; [constructor |].
  simpl. constructor; [exact Hx | apply IH].
Qed.

Section Emitter.
Variable format_f : nat -> R -> string.
Hypothesis format_plain : forall d r, no_lt (format_f d r) = true.

Lemma fmt_plain (d : nat) (v : pyfloat) : no_lt (fmt format_f d v) = true.
Proof. destruct v; [apply format_plain | reflexivity]. Qed.

Ltac plain :=
  first [ assumption | apply fmt_plain | apply no_lt_style_id | reflexivity ].

Ltac pieces :=
  rewrite ?append_assoc_str;
  repeat (rewrite counts_app by first [ reflexivity | apply plain_counts; plain ]);
  repeat match goal with
         | |- context [counts ?s] => rewrite (plain_counts_eq s) by plain
         end.

Ltac closed_pieces :=
  rewrite ?append_assoc_str;
  repeat (apply closed_all_app; [first [ reflexivity | apply plain_counts; plain ] |]);
  first [ reflexivity | apply plain_counts; plain ].

Lemma when_line_counts (t : cell) :
  no_lt (cell_text t) = true ->
  closed_all (when_line t) = true /\ counts (when_line t) = [0; 0; 0; 1; 0]%nat.
Proof.
  intros Ht. unfold when_line. split; [closed_pieces |]. pieces. reflexivity.
Qed.

Lemma coord_line_counts (lon lat alt_m : pyfloat) :
  closed_all (coord_line format_f lon lat alt_m) = true /\
  counts (coord_line format_f lon lat alt_m) = [0; 0; 0; 0; 1]%nat.
Proof.
  unfold coord_line. split; [closed_pieces |]. pieces. reflexivity.
Qed.

Lemma sample_lines_counts_text (l : list (cell * pyfloat * pyfloat * pyfloat)) :
  Forall (fun s => no_lt (cell_text (fst (fst (fst s)))) = true) l ->
  Forall (fun line => closed_all line = true) (flat_map (sample_lines format_f) l) /\
  sum_counts (map counts (flat_map (sample_lines format_f) l))
  = [0; 0; 0; List.length l; List.length l]%nat.
Proof.
  induction 1 as [| [[[t x] y] z] l Ht Hl [IH1 IH2]]; [split; [constructor | reflexivity] |].
  cbn [flat_map]. unfold sample_lines at 1 3.
  destruct (xyz_to_lonlatalt_nan x y z) as [[lon lat] alt_m].
  destruct (when_line_counts t Ht) as [Hw1 Hw2].
  destruct (coord_line_counts lon lat alt_m) as [Hc1 Hc2].
  split.
  - cbn [app]. constructor; [exact Hw1 |]. constructor; [exact Hc1 | exact IH1].
  - change (sum_counts (map counts ([when_line t; coord_line format_f lon lat alt_m]
                                      ++ flat_map (sample_lines format_f) l)))
      with (add_counts (counts (when_line t))
              (add_counts (counts (coord_line format_f lon lat alt_m))
                 (sum_counts (map counts (flat_map (sample_lines format_f) l))))).
    rewrite IH2, Hw2, Hc2. reflexivity.
Qed.

Lemma make_when_coords_counts (T : list cell) (X Y Z : list pyfloat) :
  Forall (fun t => no_lt (cell_text t) = true) T ->
  closed_all (make_when_coords format_f T X Y Z) = true /\
  counts (make_when_coords format_f T X Y Z)
  = [0; 0; 0; List.length (zip4 T X Y Z); List.length (zip4 T X Y Z)]%nat.
Proof.
  intros HT. unfold make_when_coords, join. rewrite when_coords_lines_flat.
  destruct (sample_lines_counts_text (zip4 T X Y Z)) as [H1 H2].
  { apply (zip4_Forall (fun t => no_lt (cell_text t) = true)). exact HT. }
  destruct (counts_concat nl _ eq_refl eq_refl H1) as [K1 K2].
  split; [exact K1 |]. now rewrite K2, H2.
Qed.

Lemma style_block_counts (idx : nat) :
  closed_all (style_block idx) = true /\
  counts (style_block idx) = [1; 0; 0; 0; 0]%nat.
Proof.
  unfold style_block, STYLE_TEMPLATE, unlines, width_text.
  cbn [map String.concat]. split; [closed_pieces |]. pieces. reflexivity.
Qed.

Lemma track_block_counts (e : nat * series) :
  plain_series (snd e) ->
  closed_all (track_block format_f e) = true /\
  counts (track_block format_f e)
  = [0; 1; 1; List.length (samples_of (snd e)); List.length (samples_of (snd e))]%nat.
Proof.
  destruct e as [idx [[[[name T] X] Y] Z]]. cbn [snd plain_series samples_of].
  intros [Hname HT].
  destruct (make_when_coords_counts T X Y Z HT) as [Hw1 Hw2].
  unfold track_block, PLACEMARK_TEMPLATE, unlines.
  cbn [map String.concat]. rewrite ?append_assoc_str. split.
  - repeat (apply closed_all_app;
            [first [ reflexivity | exact Hw1 | apply plain_counts; plain ] |]).
    reflexivity.
  - repeat (rewrite counts_app
              by first [ reflexivity | exact Hw1 | apply plain_counts; plain ]).
    repeat match goal with
           | |- context [counts ?s] => rewrite (plain_counts_eq s) by plain
           end.
    rewrite Hw2. cbn. list_eq.
Qed.

Lemma style_blocks_counts (l : list nat) :
  Forall (fun s => closed_all s = true) (map style_block l) /\
  sum_counts (map counts (map style_block l)) = [List.length l; 0; 0; 0; 0]%nat.
Proof.
  induction l as [| idx l [IH1 IH2]]; [split; [constructor | reflexivity] |].
  destruct (style_block_counts idx) as [H1 H2]. split.
  - cbn [map]. constructor; assumption.
  - change (sum_counts (map counts (map style_block (idx :: l))))
      with (add_counts (counts (style_block idx))
              (sum_counts (map counts (map style_block l)))).
    rewrite H2, IH2. reflexivity.
Qed.

Lemma track_blocks_counts (es : list (nat * series)) :
  Forall (fun e => plain_series (snd e)) es ->
  Forall (fun s => closed_all s = true) (map (track_block format_f) es) /\
  sum_counts (map counts (map (track_block format_f) es))
  = [ 0; List.length es; List.length es;
      List.length (flat_map (fun e => samples_of (snd e)) es);
      List.length (flat_map (fun e => samples_of (snd e)) es) ]%nat.
Proof.
  induction 1 as [| e es He Hes [IH1 IH2]]; [split; [constructor | reflexivity] |].
  destruct (track_block_counts e He) as [H1 H2]. split.
  - cbn [map]. constructor; assumption.
  - change (sum_counts (map counts (map (track_block format_f) (e :: es))))
      with (add_counts (counts (track_block format_f e))
              (sum_counts (map counts (map (track_block format_f) es)))).
    rewrite H2, IH2. cbn [flat_map]. rewrite length_app. cbn. list_eq.
Qed.

Lemma enumerate_snd {A : Type} (l : list A) : map snd (enumerate l) = l.
Proof.
  unfold enumerate. generalize 0%nat. induction l as [| a l IH]; intros n; simpl;
    [reflexivity | now rewrite IH].
Qed.

Lemma enumerate_samples (ss : list series) :
  flat_map (fun e : nat * series => samples_of (snd e)) (enumerate ss)
  = flat_map samples_of ss.
Proof.
  rewrite <- (enumerate_snd ss) at 2. rewrite !flat_map_concat_map, map_map. reflexivity.
Qed.

Lemma enumerate_plain (ss : list series) :
  Forall plain_series ss ->
  Forall (fun e : nat * series => plain_series (snd e)) (enumerate ss).
Proof.
  intros H. apply Forall_forall. intros e He.
  rewrite Forall_forall in H. apply H.
  rewrite <- (enumerate_snd ss). now apply in_map.
Qed.

(** The text of the document, part by part *)
Lemma build_kml_text (ss : list series) :
  build_kml format_f ss =
  KML_HEADER
    ++ join EmptyString (map style_block (seq 0 (List.length ss)))
    ++ join EmptyString (map (track_block format_f) (enumerate ss))
    ++ KML_FOOTER.
Proof.
  unfold build_kml. rewrite build_kml_parts_shape.
  rewrite !join_empty_app. unfold join at 1 4. simpl String.concat. reflexivity.
Qed.

Lemma build_kml_counts (ss : list series) :
  Forall plain_series ss ->
  counts (build_kml format_f ss)
  = [ List.length ss; List.length ss; List.length ss;
      List.length (flat_map samples_of ss); List.length (flat_map samples_of ss) ]%nat.
Proof.
  intros Hss. rewrite build_kml_text. unfold join.
  destruct (style_blocks_counts (seq 0 (List.length ss))) as [S1 S2].
  destruct (track_blocks_counts (enumerate ss) (enumerate_plain ss Hss)) as [T1 T2].
  destruct (counts_concat EmptyString _ eq_refl eq_refl S1) as [S3 S4].
  destruct (counts_concat EmptyString _ eq_refl eq_refl T1) as [T3 T4].
  rewrite (counts_app KML_HEADER _ eq_refl), (counts_app _ _ S3), (counts_app _ _ T3).
  rewrite S4, S2, T4, T2, length_seq, enumerate_length, enumerate_samples.
  cbn. list_eq.
Qed.

(** C6 (amended). Counts and order in the text [build_kml] returns, for
    series whose names and dates hold no [<] and a number format that
    yields none: the text holds exactly [N] style blocks and [N] track
    blocks; it is the header, the style blocks [s1 .. sN], the track blocks
    in the order of the series, and the footer; the track of a series holds
    one track element, and as many time markers and as many coordinate
    records as the series has samples; and its lines are, sample by sample
    in input order, a time marker followed by a coordinate record. *)
Theorem build_kml_block_counts (ss : list series) :
  Forall plain_series ss ->
  count_text style_tag (build_kml format_f ss) = List.length ss /\
  count_text placemark_tag (build_kml format_f ss) = List.length ss /\
  count_text track_tag (build_kml format_f ss) = List.length ss /\
  count_text when_tag (build_kml format_f ss) = List.length (flat_map samples_of ss) /\
  count_text coord_tag (build_kml format_f ss) = List.length (flat_map samples_of ss) /\
  build_kml format_f ss =
    KML_HEADER
      ++ join EmptyString (map style_block (seq 0 (List.length ss)))
      ++ join EmptyString (map (track_block format_f) (enumerate ss))
      ++ KML_FOOTER /\
  Forall (fun idx => count_text style_tag (style_block idx) = 1%nat)
         (seq 0 (List.length ss)) /\
  Forall (fun e : nat * series =>
            count_text track_tag (track_block format_f e) = 1%nat /\
            count_text when_tag (track_block format_f e)
              = List.length (samples_of (snd e)) /\
            count_text coord_tag (track_block format_f e)
              = List.length (samples_of (snd e)))
         (enumerate ss) /\
  Forall (fun s : series =>
            let '(_, T, X, Y, Z) := s in
            make_when_coords format_f T X Y Z
            = join nl (flat_map (sample_lines format_f) (samples_of s)))
         ss.
Proof.
  intros Hss. pose proof (build_kml_counts ss Hss) as H.
  split; [exact (f_equal (fun l => nth 0 l 0%nat) H) |].
  split; [exact (f_equal (fun l => nth 1 l 0%nat) H) |].
  split; [exact (f_equal (fun l => nth 2 l 0%nat) H) |].
  split; [exact (f_equal (fun l => nth 3 l 0%nat) H) |].
  split; [exact (f_equal (fun l => nth 4 l 0%nat) H) |].
  split; [apply build_kml_text |].
  split; [| split].
  - apply Forall_forall. intros idx _.
    destruct (style_block_counts idx) as [_ K].
    exact (f_equal (fun l => nth 0 l 0%nat) K).
  - pose proof (enumerate_plain ss Hss) as He. rewrite Forall_forall in He.
    apply Forall_forall. intros e Hin.
    destruct (track_block_counts e (He e Hin)) as [_ K].
    split; [exact (f_equal (fun l => nth 2 l 0%nat) K) |].
    split; [exact (f_equal (fun l => nth 3 l 0%nat) K) |].
    exact (f_equal (fun l => nth 4 l 0%nat) K).
  - apply Forall_forall. intros [[[[name T] X] Y] Z] _.
    unfold make_when_coords, samples_of. now rewrite when_coords_lines_flat.
Qed.

End Emitter.

(** C6, counterexample. A series without samples whose name is the text of
    a tag: the document of this one series holds two style tags, and the
    one of a series named after the coordinate tag holds a coordinate tag
    though the series has no sample. *)
Lemma markup_in_name_adds_blocks :
  count_text style_tag
    (build_kml (fun _ _ => "0") [ ("<Style id=", [], [], [], []) ]) = 2%nat /\
  count_text coord_tag
    (build_kml (fun _ _ => "0") [ ("<gx:coord>", [], [], [], []) ]) = 1%nat /\
  samples_of ("<gx:coord>", [], [], [], []) = [].
Proof. split; [| split]; vm_compute; reflexivity. Qed.

(** Two series of three and five samples: two style blocks, two track
    blocks, and tracks of three and five coordinate records. *)
Lemma build_kml_block_counts_witness :
  count_text style_tag
    (build_kml (fun _ _ => "0")
       [ ("A", [Field "t0"; Field "t1"; Field "t2"],
          [Num 1; Num 2; Num 3], [Num 0; Num 1; Num 0], [Num 0; Num 0; Num 1]);
         ("B", [Field "t0"; Field "t1"; Field "t2"; Field "t3"; Field "t4"],
          [Num 1; Num 2; Num 3; Num 4; Num 5], [Num 0; Num 1; Num 0; Num 1; Num 0],
          [Num 0; Num 0; Num 1; Num 1; Num 1]) ]) = 2%nat /\
  count_text track_tag
    (build_kml (fun _ _ => "0")
       [ ("A", [Field "t0"; Field "t1"; Field "t2"],
          [Num 1; Num 2; Num 3], [Num 0; Num 1; Num 0], [Num 0; Num 0; Num 1]);
         ("B", [Field "t0"; Field "t1"; Field "t2"; Field "t3"; Field "t4"],
          [Num 1; Num 2; Num 3; Num 4; Num 5], [Num 0; Num 1; Num 0; Num 1; Num 0],
          [Num 0; Num 0; Num 1; Num 1; Num 1]) ]) = 2%nat /\
  Forall (fun e : nat * series =>
            count_text track_tag (track_block (fun _ _ => "0") e) = 1%nat /\
            count_text when_tag (track_block (fun _ _ => "0") e)
              = List.length (samples_of (snd e)) /\
            count_text coord_tag (track_block (fun _ _ => "0") e)
              = List.length (samples_of (snd e)))
    (enumerate
       [ ("A", [Field "t0"; Field "t1"; Field "t2"],
          [Num 1; Num 2; Num 3], [Num 0; Num 1; Num 0], [Num 0; Num 0; Num 1]);
         ("B", [Field "t0"; Field "t1"; Field "t2"; Field "t3"; Field "t4"],
          [Num 1; Num 2; Num 3; Num 4; Num 5], [Num 0; Num 1; Num 0; Num 1; Num 0],
          [Num 0; Num 0; Num 1; Num 1; Num 1]) ]).
Proof.
  assert (Hf : forall (d : nat) (r : R), no_lt ((fun _ _ => "0") d r) = true)
    by (intros; reflexivity).
  assert (Hp : Forall plain_series
                 [ ("A", [Field "t0"; Field "t1"; Field "t2"],
                    [Num 1; Num 2; Num 3], [Num 0; Num 1; Num 0], [Num 0; Num 0; Num 1]);
                   ("B", [Field "t0"; Field "t1"; Field "t2"; Field "t3"; Field "t4"],
                    [Num 1; Num 2; Num 3; Num 4; Num 5], [Num 0; Num 1; Num 0; Num 1; Num 0],
                    [Num 0; Num 0; Num 1; Num 1; Num 1]) ]).
  { repeat constructor. }
  destruct (build_kml_block_counts (fun _ _ => "0") Hf _ Hp)
    as (H1 & _ & H3 & _ & _ & _ & _ & H8 & _).
  split; [exact H1 |]. split; [exact H3 | exact H8].
Defined.

End MarkupFacts.
